(** * IPython's ExtensionManager (IPython/core/extensions.py)

    A shallow embedding of [ExtensionManager] and the properties of its
    [loaded] set, its hook protocol and [install_extension].

    The manager's methods are Python procedures that read and mutate the
    manager ([self.loaded]), the interpreter ([sys.modules], [sys.path]) and
    the file system, that call code of the extension modules, and that may
    raise.  They are embedded in a small monad [M] that threads the state,
    returns either a value or an exception, and writes the observable
    events (hook calls, imports, reloads, file operations) in order. *)

From Stdlib Require Import String Ascii ZArith List.
From stdpp Require Import gmap strings list.
Import ListNotations.

Local Open Scope string_scope.
Local Open Scope Z_scope.
Local Open Scope list_scope.

(** ** Python values and exceptions *)

(** The values the methods return: [None], [True] or a string. *)
Inductive pyval :=
| PyNone
| PyTrue
| PyStr (s : string).

(** Python truthiness, as used by [if self._call_..._extension(mod):]. *)
Definition truthy (v : pyval) : bool :=
  match v with
  | PyNone => false
  | PyTrue => true
  | PyStr s => negb (String.eqb s "")
  end.

Inductive exn :=
| ImportError (name : string)
| KeyError (key : string)
| AttributeError (what : string)
| ValueError (msg : string) (arg : string)
| HookException (e : string)
| ReloadException (name : string)
| OSError (what : string)
| URLError (url : string).

Inductive result (A : Type) :=
| Ok (a : A)
| Err (e : exn).
Arguments Ok {A} a.
Arguments Err {A} e.

(** ** Extension modules *)

(** What calling a hook does, as far as the manager can see: it returns
    (its return value is ignored) or it raises. *)
Inductive behaviour :=
| Returns
| Raises (e : string).

(** A module object: [__file__] ([None] for a module without a source
    file, such as a namespace package) and the two optional hooks;
    [hasattr(mod, 'load_ipython_extension')] is [is_Some (load_hook mod)]. *)
Record module := Module {
  mod_file : option string;
  load_hook : option behaviour;
  unload_hook : option behaviour
}.

Inductive hook_kind := LoadHook | UnloadHook.

#[global] Instance behaviour_eq_dec : EqDecision behaviour.
Proof. solve_decision. Defined.
#[global] Instance module_eq_dec : EqDecision module.
Proof. solve_decision. Defined.
#[global] Instance hook_kind_eq_dec : EqDecision hook_kind.
Proof. solve_decision. Defined.

(** ** The file system *)

Inductive node :=
| File (content : string)
| Dir.

(** ** Observable events *)

Inductive event :=
| EvImport (name : string)
| EvPrint (ext dir : string)
| EvHook (k : hook_kind) (m : module) (b : behaviour)
| EvReload (m : module)
| EvMkdir (path : string)
| EvCopy (src dst : string)
| EvDownload (url dst : string).

(** ** State *)

Record state := State {
  loaded : gset string;                (* self.loaded *)
  ipython_dir : string;                (* self.shell.ipython_dir *)
  sys_modules : gmap string module;    (* sys.modules *)
  sys_path : list string;              (* sys.path *)
  fs : gmap string node                (* the file system *)
}.

Definition set_loaded (f : gset string -> gset string) (st : state) : state :=
  State (f (loaded st)) (ipython_dir st) (sys_modules st) (sys_path st) (fs st).
Definition set_ipython_dir (d : string) (st : state) : state :=
  State (loaded st) d (sys_modules st) (sys_path st) (fs st).
Definition set_sys_modules (f : gmap string module -> gmap string module)
    (st : state) : state :=
  State (loaded st) (ipython_dir st) (f (sys_modules st)) (sys_path st) (fs st).
Definition set_sys_path (p : list string) (st : state) : state :=
  State (loaded st) (ipython_dir st) (sys_modules st) p (fs st).
Definition set_fs (f : gmap string node -> gmap string node) (st : state) : state :=
  State (loaded st) (ipython_dir st) (sys_modules st) (sys_path st) (f (fs st)).

(** ** The monad: state, exceptions and an event log *)

Definition M (A : Type) : Type := state -> result A * state * list event.

Definition ret {A} (a : A) : M A := fun st => (Ok a, st, []).
Definition raise {A} (e : exn) : M A := fun st => (Err e, st, []).
Definition bind {A B} (c : M A) (k : A -> M B) : M B :=
  fun st =>
    match c st with
    | (Ok a, st1, ev1) =>
        match k a st1 with
        | (r, st2, ev2) => (r, st2, ev1 ++ ev2)
        end
    | (Err e, st1, ev1) => (Err e, st1, ev1)
    end.
Definition gets {A} (f : state -> A) : M A := fun st => (Ok (f st), st, []).
Definition modify (f : state -> state) : M unit := fun st => (Ok tt, f st, []).
Definition emit (e : event) : M unit := fun st => (Ok tt, st, [e]).

Notation "'do' x <- c ;; k" := (bind c (fun x => k))
  (at level 10, x name, c at level 99, k at level 200, only parsing).
Notation "'run' c ;; k" := (bind c (fun _ => k))
  (at level 10, c at level 99, k at level 200, only parsing).

(** Projections of a run. *)
Definition res_of {A} (r : result A * state * list event) : result A := fst (fst r).
Definition state_of {A} (r : result A * state * list event) : state := snd (fst r).
Definition events_of {A} (r : result A * state * list event) : list event := snd r.

(** ** [os.path] on POSIX paths *)

Module Path.

Definition chars (s : string) : list ascii := list_ascii_of_string s.
Definition str (l : list ascii) : string := string_of_list_ascii l.

(** [p.rfind(c)]: the highest index of [c] in [p], or [-1]. *)
Fixpoint rfind_from (c : ascii) (l : list ascii) (i acc : Z) : Z :=
  match l with
  | [] => acc
  | x :: l' => rfind_from c l' (i + 1) (if Ascii.eqb x c then i else acc)
  end.
Definition rfind (c : ascii) (p : string) : Z := rfind_from c (chars p) 0 (-1).

(** The slices [p[:k]], [p[k:]] and [p[i:j]] for indices [0 <= i, j, k]. *)
Definition upto (k : Z) (p : string) : string := str (take (Z.to_nat k) (chars p)).
Definition from (k : Z) (p : string) : string := str (drop (Z.to_nat k) (chars p)).
Definition slice (i j : Z) (p : string) : list ascii :=
  take (Z.to_nat j - Z.to_nat i)%nat (drop (Z.to_nat i) (chars p)).

Definition startswith (p pre : string) : bool := String.prefix pre p.
Definition endswith (p suf : string) : bool :=
  String.prefix (str (rev (chars suf))) (str (rev (chars p))).

(** [posixpath.basename]: [p[p.rfind('/') + 1:]]. *)
Definition basename (p : string) : string := from (rfind "/" p + 1) p.

(** [posixpath.splitext]: the extension starts at the last dot of the last
    component, unless that component has only dots before it. *)
Definition splitext (p : string) : string * string :=
  let sepIndex := rfind "/" p in
  let dotIndex := rfind "." p in
  if dotIndex >? sepIndex then
    (* skip all leading dots *)
    if existsb (fun c => negb (Ascii.eqb c ".")) (slice (sepIndex + 1) dotIndex p)
    then (upto dotIndex p, from dotIndex p)
    else (p, "")
  else (p, "").

(** [posixpath.join(a, b)]. *)
Definition join (a b : string) : string :=
  if startswith b "/" then b
  else if String.eqb a "" || endswith a "/" then a +:+ b
  else a +:+ "/" +:+ b.

(** [s.split('/')]. *)
Fixpoint split_from (c : ascii) (l cur : list ascii) : list string :=
  match l with
  | [] => [str (rev cur)]
  | x :: l' =>
      if Ascii.eqb x c then str (rev cur) :: split_from c l' []
      else split_from c l' (x :: cur)
  end.
Definition split (c : ascii) (s : string) : list string := split_from c (chars s) [].

End Path.

(** ** The host: what the manager calls but does not define *)

(** The interpreter's import system, the standard library's copiers and
    the network, as the manager sees them.  [import_module] and [reload]
    answer under a file system and a module search path; [None] is a raised
    exception.  [import_registers] gives the other modules an import of a
    name brings into [sys.modules] (parent packages, modules the imported
    code imports), whether the import succeeds or not.  The copiers answer
    with their outcome and the file system they leave, which a failed
    transfer may have changed too. *)
Record host := Host {
  import_module : gmap string node -> list string -> string -> option module;
  import_registers :
    gmap string node -> list string -> string -> gmap string module;
  reload : gmap string node -> list string -> module -> option module;
  urlparse_path : string -> string;           (* urlparse(url).path *)
  shutil_copyfile :                           (* shutil.copyfile(src, dst) *)
    gmap string node -> string -> string -> result unit * gmap string node;
  urlretrieve :                               (* urlretrieve(url, dst) *)
    gmap string node -> string -> string -> result unit * gmap string node
}.

(** ** ExtensionManager *)

Section Manager.

Variable h : host.

(** [__init__]: the manager starts with [self.loaded = set()], in whatever
    interpreter and file system it is created. *)
Definition init (dir : string) (mods : gmap string module)
    (path : list string) (files : gmap string node) : state :=
  State ∅ dir mods path files.

(** The property [ipython_extension_dir]. *)
Definition ipython_extension_dir (st : state) : string :=
  Path.join (ipython_dir st) "extensions".

(** Modelled from the spec: [IPython.utils.path.ensure_dir_exists] is not
    part of the sources at hand; the directory is created if absent. *)
Definition ensure_dir_exists (path : string) : M unit :=
  do f <- gets fs ;;
  match f !! path with
  | None => run emit (EvMkdir path) ;; modify (set_fs (insert path Dir))
  | Some _ => ret tt
  end.

Definition _on_ipython_dir_changed : M unit :=
  do dir <- gets ipython_extension_dir ;;
  ensure_dir_exists dir.

(** Modelled from the spec: [IPython.utils.syspathcontext.prepended_to_syspath]
    is not part of the sources at hand; the directory is pushed on the search
    path for the duration of the body and popped on every exit, also
    when the body raises. *)
Definition prepended_to_syspath {A} (dir : string) (body : M A) : M A :=
  fun st =>
    match body (set_sys_path (dir :: sys_path st) st) with
    | (r, st', ev) => (r, set_sys_path (tail (sys_path st')) st', ev)
    end.

(** [importlib.import_module(name)]: a registered module is returned as it
    is; otherwise the import runs, and whatever else it registers stays
    registered; on success the module is registered under [name], on
    failure [name] is left unregistered. *)
Definition py_import_module (name : string) : M module :=
  run emit (EvImport name) ;;
  do mods <- gets sys_modules ;;
  match mods !! name with
  | Some m => ret m
  | None =>
      do files <- gets fs ;;
      do path <- gets sys_path ;;
      let others := delete name (import_registers h files path name) in
      match import_module h files path name with
      | Some m =>
          run modify (set_sys_modules (fun mods => <[name := m]> (mods ∪ others))) ;;
          ret m
      | None =>
          run modify (set_sys_modules (fun mods => mods ∪ others)) ;;
          raise (ImportError name)
      end
  end.

(** [reload(mod)], for the module object registered under [key]: the
    object is updated in place, so the registry entry changes with it. *)
Definition py_reload (key : string) (m : module) : M module :=
  run emit (EvReload m) ;;
  do files <- gets fs ;;
  do path <- gets sys_path ;;
  match reload h files path m with
  | Some m' => run modify (set_sys_modules (insert key m')) ;; ret m'
  | None => raise (ReloadException key)
  end.

(** [sys.modules[key]]. *)
Definition sys_modules_getitem (key : string) : M module :=
  do mods <- gets sys_modules ;;
  match mods !! key with
  | Some m => ret m
  | None => raise (KeyError key)
  end.

(** [mod.load_ipython_extension(self.shell)] and its sibling. *)
Definition call_hook (k : hook_kind) (m : module) (b : behaviour) : M unit :=
  run emit (EvHook k m b) ;;
  match b with
  | Returns => ret tt
  | Raises e => raise (HookException e)
  end.

Definition _call_load_ipython_extension (mod_ : module) : M pyval :=
  match load_hook mod_ with
  | Some b => run call_hook LoadHook mod_ b ;; ret PyTrue
  | None => ret PyNone
  end.

Definition _call_unload_ipython_extension (mod_ : module) : M pyval :=
  match unload_hook mod_ with
  | Some b => run call_hook UnloadHook mod_ b ;; ret PyTrue
  | None => ret PyNone
  end.

(** The import step of [load_extension], run when the module is not in
    [sys.modules]: import with the extension directory on the path, and
    warn when the module comes from that directory. *)
Definition import_fresh (module_str : string) : M unit :=
  do dir <- gets ipython_extension_dir ;;
  prepended_to_syspath dir (
    do mod_ <- py_import_module module_str ;;
    match mod_file mod_ with
    | None => raise (AttributeError "startswith")
    | Some file =>
        if Path.startswith file dir then emit (EvPrint module_str dir)
        else ret tt
    end).

Definition load_extension (module_str : string) : M pyval :=
  do ld <- gets loaded ;;
  if decide (module_str ∈ ld) then ret (PyStr "already loaded") else
  (* with self.shell.builtin_trap: *)
  do mods <- gets sys_modules ;;
  run (match mods !! module_str with
       | None => import_fresh module_str
       | Some _ => ret tt
       end) ;;
  do mod_ <- sys_modules_getitem module_str ;;
  do r <- _call_load_ipython_extension mod_ ;;
  if truthy r then
    run modify (set_loaded (fun s => s ∪ {[module_str]})) ;; ret PyNone
  else ret (PyStr "no load function").

Definition unload_extension (module_str : string) : M pyval :=
  do ld <- gets loaded ;;
  if decide (module_str ∉ ld) then ret (PyStr "not loaded") else
  do mods <- gets sys_modules ;;
  match mods !! module_str with
  | Some _ =>
      do mod_ <- sys_modules_getitem module_str ;;
      do r <- _call_unload_ipython_extension mod_ ;;
      if truthy r then
        run modify (set_loaded (fun s => s ∖ {[module_str]})) ;; ret PyNone
      else ret (PyStr "no unload function")
  | None => ret PyNone
  end.

Definition reload_extension (module_str : string) : M pyval :=
  do ld <- gets loaded ;;
  do mods <- gets sys_modules ;;
  if bool_decide (module_str ∈ ld) && bool_decide (is_Some (mods !! module_str)) then
    run unload_extension module_str ;;
    do mod_ <- sys_modules_getitem module_str ;;
    do dir <- gets ipython_extension_dir ;;
    do mod_ <- prepended_to_syspath dir (py_reload module_str mod_) ;;
    do r <- _call_load_ipython_extension mod_ ;;
    if truthy r then
      run modify (set_loaded (fun s => s ∪ {[module_str]})) ;; ret PyNone
    else ret PyNone
  else
    run load_extension module_str ;; ret PyNone.

(** [os.path.isfile]. *)
Definition isfile (p : string) : M bool :=
  do files <- gets fs ;;
  ret (match files !! p with Some (File _) => true | _ => false end).

(** A transfer by one of the host's copiers: the file system becomes what
    the copier leaves, and its exception, if any, propagates. *)
Definition transfer (out : result unit * gmap string node) : M unit :=
  run modify (set_fs (fun _ => snd out)) ;;
  match fst out with
  | Ok _ => ret tt
  | Err e => raise e
  end.

(** [shutil.copyfile(src, dst)]. *)
Definition copyfile (src dst : string) : M unit :=
  run emit (EvCopy src dst) ;;
  do files <- gets fs ;;
  transfer (shutil_copyfile h files src dst).

(** [urllib.request.urlretrieve(url, dst)]. *)
Definition py_urlretrieve (url dst : string) : M unit :=
  run emit (EvDownload url dst) ;;
  do files <- gets fs ;;
  transfer (urlretrieve h files url dst).

(** [os.path.splitext(filename)[1] in ('.py', '.zip')]. *)
Definition allowed_extension (filename : string) : bool :=
  existsb (String.eqb (snd (Path.splitext filename))) [".py"; ".zip"].

(** The name the source itself suggests, and the copier for it. *)
Definition source_of (url : string) (local : bool) : string * (string -> string -> M unit) :=
  if local then (Path.basename url, copyfile)
  else (List.last (Path.split "/" (urlparse_path h url)) "", py_urlretrieve).

(** [install_extension].  The deferred [from urllib... import] statements of
    its remote branch bind [urlparse] and [urlretrieve]; what they may add to
    [sys.modules] is not tracked. *)
Definition install_extension (url : string) (filename : option string) : M pyval :=
  (* Ensure the extension directory exists *)
  do dir <- gets ipython_extension_dir ;;
  run ensure_dir_exists dir ;;
  do local <- isfile url ;;
  let src_filename := fst (source_of url local) in
  let copy := snd (source_of url local) in
  let filename := match filename with None => src_filename | Some f => f end in
  if negb (allowed_extension filename) then
    raise (ValueError "The file must have a .py or .zip extension" filename)
  else
    do dir <- gets ipython_extension_dir ;;
    let filename := Path.join dir filename in
    run copy url filename ;;
    ret (PyStr filename).

End Manager.

Arguments Path.join : simpl never.
Arguments Path.startswith : simpl never.
Arguments Path.splitext : simpl never.
Arguments Path.basename : simpl never.
Arguments Path.split : simpl never.

(** ** The methods, case by case

    Closed forms of what each method does in each of its cases; the lemmas
    of the section [Equations] prove that the methods compute them. *)

Section Cases.

Variable h : host.

(** The events of calling the hook of kind [k] of [m], if it has one. *)
Definition hook_of (k : hook_kind) (m : module) : option behaviour :=
  match k with
  | LoadHook => load_hook m
  | UnloadHook => unload_hook m
  end.

Definition hook_events (k : hook_kind) (m : module) : list event :=
  match hook_of k m with
  | Some b => [EvHook k m b]
  | None => []
  end.

(** What a fresh import of [id], run with the extension directory on the
    search path, registers besides [id]. *)
Definition registered_with (id : string) (st : state) : gmap string module :=
  delete id
    (import_registers h (fs st) (ipython_extension_dir st :: sys_path st) id).

(** The state a fresh import of [id] leaves, when it gave [m] and when it
    failed. *)
Definition imported (id : string) (m : module) (st : state) : state :=
  set_sys_modules (fun mods => <[id := m]> (mods ∪ registered_with id st)) st.

Definition import_failed (id : string) (st : state) : state :=
  set_sys_modules (fun mods => mods ∪ registered_with id st) st.

(** What [load_extension] does once [sys.modules[module_str]] is [m]. *)
Definition finish_load (id : string) (m : module) (st : state)
    : result pyval * state * list event :=
  match load_hook m with
  | None => (Ok (PyStr "no load function"), st, [])
  | Some Returns =>
      (Ok PyNone, set_loaded (fun s => s ∪ {[id]}) st, [EvHook LoadHook m Returns])
  | Some (Raises e) => (Err (HookException e), st, [EvHook LoadHook m (Raises e)])
  end.

(** The legacy-location warning, when the module's file is under [dir]. *)
Definition warning (id file dir : string) : list event :=
  if Path.startswith file dir then [EvPrint id dir] else [].

Definition after {A} (ev : list event) (r : result A * state * list event)
    : result A * state * list event :=
  (res_of r, state_of r, ev ++ events_of r).

(** A call whose value the caller drops: [self.load_extension(module_str)]
    as a statement. *)
Definition discard {A} (r : result A * state * list event)
    : result pyval * state * list event :=
  (match res_of r with Ok _ => Ok PyNone | Err e => Err e end,
   state_of r, events_of r).

(** What [reload_extension] does after its call of [unload_extension], from
    the state [st1] that call left. *)
Definition finish_reload (id : string) (m : module) (st1 : state)
    : result pyval * state * list event :=
  match reload h (fs st1) (ipython_extension_dir st1 :: sys_path st1) m with
  | None => (Err (ReloadException id), st1, [EvReload m])
  | Some m' =>
      let st2 := set_sys_modules (insert id m') st1 in
      match load_hook m' with
      | None => (Ok PyNone, st2, [EvReload m])
      | Some Returns =>
          (Ok PyNone, set_loaded (fun s => s ∪ {[id]}) st2,
           [EvReload m; EvHook LoadHook m' Returns])
      | Some (Raises e) =>
          (Err (HookException e), st2, [EvReload m; EvHook LoadHook m' (Raises e)])
      end
  end.

(** The steps of [reload_extension] on a loaded, registered module [m],
    when reloading [m] gives [reloaded]: the unload hook if [m] has one, the
    reload unless that hook raised, the load hook of the reloaded module if
    the reload went through and that module has one. *)
Definition reload_steps (m : module) (reloaded : option module) : list event :=
  match unload_hook m with
  | Some (Raises e) => [EvHook UnloadHook m (Raises e)]
  | _ =>
      hook_events UnloadHook m ++
      EvReload m ::
      match reloaded with
      | Some m' => hook_events LoadHook m'
      | None => []
      end
  end.

(** How those steps end: with the exception of the first step that raises,
    or with [None]. *)
Definition reload_outcome (id : string) (m : module) (reloaded : option module)
    : result pyval :=
  match unload_hook m with
  | Some (Raises e) => Err (HookException e)
  | _ =>
      match reloaded with
      | None => Err (ReloadException id)
      | Some m' =>
          match load_hook m' with
          | Some (Raises e) => Err (HookException e)
          | _ => Ok PyNone
          end
      end
  end.

(** The module object [load_extension] works on for [id]: the one already
    registered, or the one a fresh import (with the extension directory on
    the search path) registers; the fresh one must have a [__file__], which
    the method inspects. *)
Inductive resolves (st : state) (id : string) (m : module) : Prop :=
| resolves_registered :
    sys_modules st !! id = Some m -> resolves st id m
| resolves_imported :
    sys_modules st !! id = None ->
    import_module h (fs st) (ipython_extension_dir st :: sys_path st) id = Some m ->
    is_Some (mod_file m) ->
    resolves st id m.

(** What the copier that [install_extension] picks answers in a state. *)
Definition copier_answer (url dest : string) (local : bool) (st : state)
    : result unit * gmap string node :=
  if local then shutil_copyfile h (fs st) url dest
  else urlretrieve h (fs st) url dest.

(** [os.path.isfile(url)] in a state. *)
Definition is_local (url : string) (st : state) : bool :=
  match fs st !! url with Some (File _) => true | _ => false end.

(** The file name [install_extension] validates: the explicit one, or the
    one the source suggests. *)
Definition destination_name (url : string) (filename : option string)
    (st : state) : string :=
  match filename with
  | Some f => f
  | None => fst (source_of h url (is_local url st))
  end.

(** ** Sessions: the manager under a sequence of calls *)

Inductive call :=
| CallLoad (module_str : string)
| CallUnload (module_str : string)
| CallReload (module_str : string)
| CallInstall (url : string) (filename : option string)
| DirChanged (dir : string).

(** One call of the host on the manager.  [DirChanged] is the shell
    changing its [ipython_dir], which fires the observer that [__init__]
    registered. *)
Definition perform (c : call) : M pyval :=
  match c with
  | CallLoad id => load_extension h id
  | CallUnload id => unload_extension id
  | CallReload id => reload_extension h id
  | CallInstall url filename => install_extension h url filename
  | DirChanged d =>
      run modify (set_ipython_dir d) ;;
      run _on_ipython_dir_changed ;;
      ret PyNone
  end.

(** A session is a list of calls; an exception ends the call that raised it,
    not the session.  The log keeps the events of each call. *)
Fixpoint session (cs : list call) (st : state) : state * list (call * list event) :=
  match cs with
  | [] => (st, [])
  | c :: cs' =>
      let r := perform c st in
      let rest := session cs' (state_of r) in
      (fst rest, (c, events_of r) :: snd rest)
  end.

(** The extension a call is about. *)
Definition target (c : call) : option string :=
  match c with
  | CallLoad id | CallUnload id | CallReload id => Some id
  | CallInstall _ _ | DirChanged _ => None
  end.

(** A hook call that completed: the hook was called and returned. *)
Definition completed (e : event) : option hook_kind :=
  match e with
  | EvHook k _ Returns => Some k
  | _ => None
  end.

(** The completed hook calls among the events of a call about [id]. *)
Definition marks (id : string) (ev : list event) : list (string * hook_kind) :=
  omap (fun e => pair id <$> completed e) ev.

Definition completions (entry : call * list event) : list (string * hook_kind) :=
  match target (fst entry) with
  | Some id => marks id (snd entry)
  | None => []
  end.



(** The same, computed: replay the completed hook calls on a set. *)
Definition replay1 (s : gset string) (c : string * hook_kind) : gset string :=
  match snd c with
  | LoadHook => s ∪ {[fst c]}
  | UnloadHook => s ∖ {[fst c]}
  end.

Definition replay (s : gset string) (hist : list (string * hook_kind)) : gset string :=
  foldl replay1 s hist.

End Cases.

(** ** A small world to run the manager in *)

Module Demo.

Definition hello : module :=
  Module (Some "/site/hello.py") (Some Returns) (Some Returns).
Definition hello2 : module :=
  Module (Some "/site/hello.py") (Some Returns) None.
Definition bare : module :=
  Module (Some "/site/bare.py") None None.
Definition fragile : module :=
  Module (Some "/site/fragile.py") (Some (Raises "RuntimeError"))
    (Some (Raises "RuntimeError")).
Definition stubborn : module :=
  Module (Some "/site/stubborn.py") (Some Returns) (Some (Raises "RuntimeError")).

(** A copier of the demo world: regular files are copied onto names that
    are free or regular files. *)
Definition copy (files : gmap string node) (src dst : string)
    : result unit * gmap string node :=
  match files !! src, files !! dst with
  | Some (File c), Some Dir => (Err (OSError "IsADirectoryError"), files)
  | Some (File c), _ =>
      if String.eqb src dst then (Err (OSError "SameFileError"), files)
      else (Ok tt, <[dst := File c]> files)
  | _, _ => (Err (OSError "FileNotFoundError"), files)
  end.

(** The one URL the demo world serves. *)
Definition download (files : gmap string node) (url dst : string)
    : result unit * gmap string node :=
  if String.eqb url "http://example.org/dl/ext.py"
  then (Ok tt, <[dst := File "# downloaded"]> files)
  else (Err (URLError url), files).

Definition world : host :=
  Host
    (fun _ _ name =>
       if String.eqb name "hello" then Some hello
       else if String.eqb name "bare" then Some bare
       else if String.eqb name "fragile" then Some fragile
       else if String.eqb name "stubborn" then Some stubborn
       else None)
    (fun _ _ _ => ∅)
    (fun _ _ m => if decide (m = hello) then Some hello2 else Some m)
    (fun url => url)
    copy
    download.

Definition home : string := "/home/u/.ipython".

Definition fresh : state :=
  init home ∅ ["/site"] {[ "/tmp/ext.py" := File "# local" ]}.

(** After [load_extension("hello")]. *)
Definition with_hello : state :=
  State {[ "hello" ]} home {[ "hello" := hello ]} ["/site"]
    {[ "/tmp/ext.py" := File "# local" ]}.

(** After [reload_extension("hello")]: the new source has no unload hook. *)
Definition reloaded : state :=
  State {[ "hello" ]} home {[ "hello" := hello2 ]} ["/site"]
    {[ "/tmp/ext.py" := File "# local" ]}.

(** [hello] is loaded, and something else has dropped it from [sys.modules]. *)
Definition orphan : state :=
  State {[ "hello" ]} home ∅ ["/site"] {[ "/tmp/ext.py" := File "# local" ]}.

(** After [load_extension("stubborn")]. *)
Definition with_stubborn : state :=
  State {[ "stubborn" ]} home {[ "stubborn" := stubborn ]} ["/site"]
    {[ "/tmp/ext.py" := File "# local" ]}.

End Demo.

(** ** A profile with a legacy extension *)

Module Legacy.

(** An extension installed the old way, as a file in the extension
    directory. *)
Definition old_style : module :=
  Module (Some "/home/u/.ipython/extensions/old_style.py") (Some Returns) None.

Definition world : host :=
  Host
    (fun _ path name =>
       if String.eqb name "old_style"
       then (if bool_decide ("/home/u/.ipython/extensions" ∈ path)
             then Some old_style else None)
       else None)
    (fun _ _ _ => ∅)
    (fun _ _ m => Some m)
    (fun url => url)
    Demo.copy
    Demo.download.

Definition fresh : state :=
  init "/home/u/.ipython" ∅ ["/site"]
    {[ "/home/u/.ipython/extensions" := Dir;
       "/home/u/.ipython/extensions/old_style.py" := File "# old" ]}.

End Legacy.

(** ** A world of corner cases *)

Module Corner.

(** A namespace package: a module without a source file, and without
    hooks. *)
Definition nspkg : module := Module None None None.

(** A package that importing one of its submodules registers. *)
Definition pkg : module := Module (Some "/site/pkg/__init__.py") None None.

(** [hello] after an edit that broke its load hook. *)
Definition broken : module :=
  Module (Some "/site/hello.py") (Some (Raises "NameError")) (Some Returns).

Definition world : host :=
  Host
    (fun _ _ name => if String.eqb name "nspkg" then Some nspkg else None)
    (fun _ _ name =>
       if String.eqb name "pkg.missing" then {[ "pkg" := pkg ]} else ∅)
    (fun _ _ _ => Some broken)
    (fun url => url)
    Demo.copy
    Demo.download.

(** A profile beside a directory [/srv]. *)
Definition fresh : state :=
  init Demo.home ∅ ["/site"]
    {[ "/tmp/ext.py" := File "# local"; "/srv" := Dir ]}.

End Corner.

(** Reduce the projections of an explicit state. *)
Ltac fields :=
  cbn [loaded ipython_dir sys_modules sys_path fs set_loaded set_ipython_dir
       set_sys_modules set_sys_path set_fs tail] in *.


(** ** Running the monad *)

Lemma bind_gets {A B} (f : state -> A) (k : A -> M B) (st : state) :
  bind (gets f) k st = k (f st) st.
Proof.
  unfold bind, gets. destruct (k (f st) st) as [[r s] e]. reflexivity.
Qed.

Lemma bind_ret {A B} (a : A) (k : A -> M B) (st : state) :
  bind (ret a) k st = k a st.
Proof.
  unfold bind, ret. destruct (k a st) as [[r s] e]. reflexivity.
Qed.

Lemma bind_ok {A B} (c : M A) (k : A -> M B) (st st1 : state) (a : A)
    (ev1 : list event) :
  c st = (Ok a, st1, ev1) -> bind c k st = after ev1 (k a st1).
Proof.
  intros Hc. unfold bind, after, res_of, state_of, events_of. rewrite Hc.
  destruct (k a st1) as [[r s] e]. reflexivity.
Qed.

Lemma bind_err {A B} (c : M A) (k : A -> M B) (st st1 : state) (e : exn)
    (ev1 : list event) :
  c st = (Err e, st1, ev1) -> bind c k st = (Err e, st1, ev1).
Proof. intros Hc. unfold bind. rewrite Hc. reflexivity. Qed.

Lemma after_nil {A} (r : result A * state * list event) : after [] r = r.
Proof. destruct r as [[r s] e]. reflexivity. Qed.

(** ** The methods compute their cases *)

Section Equations.

Variable h : host.

Lemma load_extension_already (id : string) (st : state) :
  id ∈ loaded st ->
  load_extension h id st = (Ok (PyStr "already loaded"), st, []).
Proof.
  intros Hin. unfold load_extension, bind, gets, ret. simpl.
  destruct (decide (id ∈ loaded st)); [reflexivity | contradiction].
Qed.

Lemma load_extension_registered (id : string) (st : state) (m : module) :
  id ∉ loaded st -> sys_modules st !! id = Some m ->
  load_extension h id st = finish_load id m st.
Proof.
  intros Hnot Hm. unfold load_extension, finish_load, bind, gets, ret. simpl.
  destruct (decide (id ∈ loaded st)); [contradiction|].
  rewrite Hm. simpl. unfold sys_modules_getitem, bind, gets. simpl. rewrite Hm.
  simpl. unfold _call_load_ipython_extension.
  destruct (load_hook m) as [[|e]|]; reflexivity.
Qed.

Lemma load_extension_fresh (id : string) (st : state) :
  id ∉ loaded st -> sys_modules st !! id = None ->
  load_extension h id st =
    let dir := ipython_extension_dir st in
    match import_module h (fs st) (dir :: sys_path st) id with
    | None => (Err (ImportError id), import_failed h id st, [EvImport id])
    | Some m =>
        let st1 := imported h id m st in
        match mod_file m with
        | None => (Err (AttributeError "startswith"), st1, [EvImport id])
        | Some file =>
            after (EvImport id :: warning id file dir) (finish_load id m st1)
        end
    end.
Proof.
  intros Hnot Hm. unfold load_extension, bind, gets, ret. simpl.
  destruct (decide (id ∈ loaded st)); [contradiction|].
  rewrite Hm. unfold import_fresh, prepended_to_syspath, py_import_module,
    bind, gets, ret, emit, modify, raise. simpl. rewrite Hm. simpl.
  unfold imported, import_failed, registered_with.
  destruct (import_module h (fs st) (ipython_extension_dir st :: sys_path st) id)
    as [m|]; [|destruct st; reflexivity].
  simpl. destruct (mod_file m) as [file|]; [|destruct st; reflexivity].
  unfold warning, finish_load, after, sys_modules_getitem,
    _call_load_ipython_extension, bind, gets.
  destruct (Path.startswith file (ipython_extension_dir st)); simpl;
    rewrite lookup_insert_eq; simpl;
    destruct (load_hook m) as [[|e]|]; destruct st; reflexivity.
Qed.

Lemma unload_extension_not_loaded (id : string) (st : state) :
  id ∉ loaded st ->
  unload_extension id st = (Ok (PyStr "not loaded"), st, []).
Proof.
  intros Hnot. unfold unload_extension, bind, gets, ret. simpl.
  destruct (decide (id ∉ loaded st)); [reflexivity | contradiction].
Qed.

Lemma unload_extension_unregistered (id : string) (st : state) :
  id ∈ loaded st -> sys_modules st !! id = None ->
  unload_extension id st = (Ok PyNone, st, []).
Proof.
  intros Hin Hm. unfold unload_extension, bind, gets, ret. simpl.
  destruct (decide (id ∉ loaded st)); [contradiction|].
  rewrite Hm. reflexivity.
Qed.

Lemma unload_extension_registered (id : string) (st : state) (m : module) :
  id ∈ loaded st -> sys_modules st !! id = Some m ->
  unload_extension id st =
    match unload_hook m with
    | None => (Ok (PyStr "no unload function"), st, [])
    | Some Returns =>
        (Ok PyNone, set_loaded (fun s => s ∖ {[id]}) st,
         [EvHook UnloadHook m Returns])
    | Some (Raises e) =>
        (Err (HookException e), st, [EvHook UnloadHook m (Raises e)])
    end.
Proof.
  intros Hin Hm. unfold unload_extension, bind, gets, ret. simpl.
  destruct (decide (id ∉ loaded st)); [contradiction|].
  rewrite Hm. unfold sys_modules_getitem, bind, gets. simpl. rewrite Hm.
  simpl. unfold _call_unload_ipython_extension.
  destruct (unload_hook m) as [[|e]|]; reflexivity.
Qed.

Lemma reload_extension_delegates (id : string) (st : state) :
  id ∉ loaded st \/ sys_modules st !! id = None ->
  reload_extension h id st = discard (load_extension h id st).
Proof.
  intros Hcase. unfold reload_extension at 1. unfold bind at 1 2. simpl.
  assert (bool_decide (id ∈ loaded st)
          && bool_decide (is_Some (sys_modules st !! id)) = false) as ->.
  { destruct Hcase as [Hnot|Hnone].
    - rewrite bool_decide_eq_false_2 by assumption. reflexivity.
    - rewrite Hnone, (bool_decide_eq_false_2 (is_Some None)).
      + apply andb_false_r.
      + intros [x Hx]. discriminate. }
  unfold bind, ret, discard, res_of, state_of, events_of.
  destruct (load_extension h id st) as [[[v|e] st1] ev]; simpl;
    rewrite ?app_nil_r; reflexivity.
Qed.

Lemma reload_extension_registered (id : string) (st : state) (m : module) :
  id ∈ loaded st -> sys_modules st !! id = Some m ->
  reload_extension h id st =
    match unload_hook m with
    | None => finish_reload h id m st
    | Some Returns =>
        after [EvHook UnloadHook m Returns]
          (finish_reload h id m (set_loaded (fun s => s ∖ {[id]}) st))
    | Some (Raises e) =>
        (Err (HookException e), st, [EvHook UnloadHook m (Raises e)])
    end.
Proof.
  intros Hin Hm. unfold reload_extension at 1. unfold bind at 1 2. simpl.
  rewrite Hm, bool_decide_eq_true_2, bool_decide_eq_true_2 by eauto. simpl.
  unfold bind at 1. rewrite (unload_extension_registered id st m Hin Hm).
  unfold finish_reload, after, res_of, state_of, events_of.
  destruct (unload_hook m) as [[|e]|]; [| reflexivity |];
    unfold sys_modules_getitem, prepended_to_syspath, py_reload,
      _call_load_ipython_extension, call_hook, bind, gets, ret, emit, modify, raise;
    simpl; rewrite Hm; simpl.
  all: destruct st as [ld d mods path files]; unfold ipython_extension_dir;
    fields; destruct (reload h files (Path.join d "extensions" :: path) m)
      as [m'|]; fields; [|reflexivity];
    destruct (load_hook m') as [[|e]|]; reflexivity.
Qed.

End Equations.

(** ** Loading and unloading *)

Lemma resolves_load_extension (h : host) (id : string) (st : state) (m : module) :
  id ∉ loaded st -> resolves h st id m ->
  exists st1 ev1,
    load_extension h id st = after ev1 (finish_load id m st1) /\
    loaded st1 = loaded st.
Proof.
  intros Hnot [Hreg | Hnone Himp [file Hfile]].
  - exists st, []. split; [|reflexivity].
    rewrite (load_extension_registered h id st m Hnot Hreg).
    unfold after, res_of, state_of, events_of.
    destruct (finish_load id m st) as [[r s] e]. reflexivity.
  - exists (imported h id m st),
      (EvImport id :: warning id file (ipython_extension_dir st)).
    split; [|reflexivity].
    rewrite (load_extension_fresh h id st Hnot Hnone). cbv zeta.
    rewrite Himp, Hfile. reflexivity.
Qed.

(** A module whose load hook returns gets loaded. *)
Lemma load_extension_returns (h : host) (id : string) (st : state) (m : module) :
  id ∉ loaded st -> resolves h st id m -> load_hook m = Some Returns ->
  exists st' ev,
    load_extension h id st = (Ok PyNone, st', ev) /\
    loaded st' = loaded st ∪ {[id]}.
Proof.
  intros Hnot Hres Hhook.
  destruct (resolves_load_extension h id st m Hnot Hres) as (st1 & ev1 & Heq & Hld).
  exists (set_loaded (fun s => s ∪ {[id]}) st1), (ev1 ++ [EvHook LoadHook m Returns]).
  rewrite Heq. unfold finish_load, after. rewrite Hhook.
  unfold res_of, state_of, events_of. fields. cbn [fst snd]. rewrite Hld. auto.
Qed.

(** A freshly imported module without a [__file__] stops [load_extension]
    at [mod.__file__.startswith]: the module stays registered, no hook
    runs and [loaded] is as before. *)
Lemma load_extension_no_file (h : host) (id : string) (st : state) (m : module) :
  id ∉ loaded st -> sys_modules st !! id = None ->
  import_module h (fs st) (ipython_extension_dir st :: sys_path st) id = Some m ->
  mod_file m = None ->
  load_extension h id st =
    (Err (AttributeError "startswith"), imported h id m st,
     [EvImport id]).
Proof.
  intros Hnot Hnone Himp Hfile.
  rewrite (load_extension_fresh h id st Hnot Hnone). cbv zeta.
  rewrite Himp, Hfile. reflexivity.
Qed.

(** C2: [load_extension(id)] succeeds for every [id] that is not loaded
    and whose module defines a [load_ipython_extension] that returns, and
    after it [id] is in [loaded] (nothing else is added); conversely every
    successful [load_extension(id)] leaves [id] in [loaded], registered with
    such a module; and a call [load_extension(id)] with [id] in [loaded], as
    after that success, returns "already loaded" and changes nothing: not
    [loaded], not the module registry, and no hook or import runs. *)
Theorem load_extension_adds_then_already_loaded
    (h : host) (id : string) (st : state) (m : module) :
  (id ∉ loaded st -> resolves h st id m -> load_hook m = Some Returns ->
   exists st' ev,
     load_extension h id st = (Ok PyNone, st', ev) /\
     loaded st' = loaded st ∪ {[id]} /\ id ∈ loaded st' /\
     load_extension h id st' = (Ok (PyStr "already loaded"), st', [])) /\
  (forall st' ev, load_extension h id st = (Ok PyNone, st', ev) ->
     id ∈ loaded st' /\
     exists m', sys_modules st' !! id = Some m' /\ load_hook m' = Some Returns) /\
  (id ∈ loaded st ->
   load_extension h id st = (Ok (PyStr "already loaded"), st, [])).
Proof.
  split; [|split; [|apply load_extension_already]].
  - intros Hnot Hres Hhook.
    destruct (load_extension_returns h id st m Hnot Hres Hhook)
      as (st' & ev & Hrun & Hld).
    assert (id ∈ loaded st') as Hin.
    { rewrite Hld. apply elem_of_union. right. apply elem_of_singleton. reflexivity. }
    exists st', ev. repeat split; try assumption.
    apply load_extension_already. exact Hin.
  - intros st' ev Hrun.
    destruct (decide (id ∈ loaded st)) as [Hin|Hnot].
    { rewrite load_extension_already in Hrun by assumption. discriminate. }
    destruct (sys_modules st !! id) as [m0|] eqn:Hm.
    + rewrite (load_extension_registered h id st m0 Hnot Hm) in Hrun.
      unfold finish_load in Hrun.
      destruct (load_hook m0) as [[|e]|] eqn:Hhook; inversion Hrun; subst.
      fields. split; [|eauto].
      apply elem_of_union. right. apply elem_of_singleton. reflexivity.
    + rewrite (load_extension_fresh h id st Hnot Hm) in Hrun. cbv zeta in Hrun.
      destruct (import_module h (fs st) (ipython_extension_dir st :: sys_path st) id)
        as [m0|]; [|discriminate].
      destruct (mod_file m0) as [file|]; [|discriminate].
      unfold finish_load, after, res_of, state_of, events_of in Hrun.
      destruct (load_hook m0) as [[|e]|] eqn:Hhook; inversion Hrun; subst.
      unfold imported. fields. split.
      * apply elem_of_union. right. apply elem_of_singleton. reflexivity.
      * exists m0. rewrite lookup_insert_eq. eauto.
Qed.

(** For [id] not in [loaded] whose module, registered or freshly imported
    with a [__file__], has no [load_ipython_extension], [load_extension(id)]
    returns "no load function" and does not add [id] to [loaded]. *)
Theorem load_extension_no_load_function
    (h : host) (id : string) (st : state) (m : module) :
  id ∉ loaded st -> resolves h st id m -> load_hook m = None ->
  exists st' ev,
    load_extension h id st = (Ok (PyStr "no load function"), st', ev) /\
    loaded st' = loaded st /\ id ∉ loaded st'.
Proof.
  intros Hnot Hres Hhook.
  destruct (resolves_load_extension h id st m Hnot Hres) as (st1 & ev1 & Heq & Hld).
  exists st1, ev1. rewrite Heq. unfold finish_load, after. rewrite Hhook.
  unfold res_of, state_of, events_of. simpl. rewrite app_nil_r, Hld. auto.
Qed.

(** C6: [unload_extension(id)] returns "not loaded" and leaves the state as
    it is when [id] is not in [loaded]; when [id] is in [loaded] and
    registered but the module has no [unload_ipython_extension], it returns
    "no unload function" and [id] stays in [loaded]. *)
Theorem unload_extension_status_strings (id : string) (st : state) :
  (id ∉ loaded st ->
   unload_extension id st = (Ok (PyStr "not loaded"), st, [])) /\
  (forall m, id ∈ loaded st -> sys_modules st !! id = Some m ->
     unload_hook m = None ->
     unload_extension id st = (Ok (PyStr "no unload function"), st, []) /\
     id ∈ loaded (state_of (unload_extension id st))).
Proof.
  split; [apply unload_extension_not_loaded|].
  intros m Hin Hm Hhook.
  rewrite (unload_extension_registered id st m Hin Hm), Hhook. auto.
Qed.

(** C8: for [id] in [loaded] but absent from the module registry,
    [unload_extension(id)] returns [None], raises nothing, calls nothing and
    leaves the state, so [id] stays in [loaded]. *)
Theorem unload_extension_unregistered_noop (id : string) (st : state) :
  id ∈ loaded st -> sys_modules st !! id = None ->
  unload_extension id st = (Ok PyNone, st, []) /\
  id ∈ loaded (state_of (unload_extension id st)).
Proof.
  intros Hin Hm. rewrite (unload_extension_unregistered id st Hin Hm). auto.
Qed.

(** C10: when the load hook raises during [load_extension], or the unload
    hook during [unload_extension], the exception propagates and [loaded]
    is as before: [id] is not added, respectively not removed. *)
Theorem hook_exception_keeps_loaded
    (h : host) (id : string) (st : state) (m : module) (e : string) :
  (id ∉ loaded st -> resolves h st id m -> load_hook m = Some (Raises e) ->
   exists st' ev,
     load_extension h id st = (Err (HookException e), st', ev) /\
     loaded st' = loaded st /\ id ∉ loaded st') /\
  (id ∈ loaded st -> sys_modules st !! id = Some m ->
   unload_hook m = Some (Raises e) ->
   exists st' ev,
     unload_extension id st = (Err (HookException e), st', ev) /\
     loaded st' = loaded st /\ id ∈ loaded st').
Proof.
  split.
  - intros Hnot Hres Hhook.
    destruct (resolves_load_extension h id st m Hnot Hres) as (st1 & ev1 & Heq & Hld).
    exists st1, (ev1 ++ [EvHook LoadHook m (Raises e)]).
    rewrite Heq. unfold finish_load, after. rewrite Hhook.
    unfold res_of, state_of, events_of. simpl. rewrite Hld. auto.
  - intros Hin Hm Hhook. exists st, [EvHook UnloadHook m (Raises e)].
    rewrite (unload_extension_registered id st m Hin Hm), Hhook. auto.
Qed.

(** ** Reloading *)

(** C3, as the code has it: for [id] in [loaded] and registered with module
    [m], [reload_extension(id)] calls the unload hook of [m] if it has one,
    then reloads [m], then calls the load hook of the reloaded module if it
    has one, in that order and nothing else, each step only when the one
    before did not raise; the first exception ends the call and
    propagates, otherwise the call returns [None].  Afterwards [id] is in
    [loaded] exactly when the unload hook did not return (so [id] was never
    removed) or the reload went through and the new load hook returned.  So
    when the call returns and the reloaded module defines
    [load_ipython_extension], [id] is in [loaded]. *)
Theorem reload_extension_order
    (h : host) (id : string) (st : state) (m : module) :
  id ∈ loaded st -> sys_modules st !! id = Some m ->
  let reloaded := reload h (fs st) (ipython_extension_dir st :: sys_path st) m in
  let outcome := reload_extension h id st in
  events_of outcome = reload_steps m reloaded /\
  res_of outcome = reload_outcome id m reloaded /\
  (id ∈ loaded (state_of outcome) <->
   unload_hook m <> Some Returns \/
   exists m', reloaded = Some m' /\ load_hook m' = Some Returns) /\
  (forall v m', res_of outcome = Ok v -> reloaded = Some m' ->
     sys_modules (state_of outcome) !! id = Some m' /\
     (is_Some (load_hook m') -> id ∈ loaded (state_of outcome))).
Proof.
  intros Hin Hm. cbv zeta.
  rewrite (reload_extension_registered h id st m Hin Hm).
  unfold finish_reload, after, reload_steps, reload_outcome, hook_events, hook_of,
    ipython_extension_dir. fields.
  destruct (unload_hook m) as [[|e]|];
    try destruct (reload h (fs st) (Path.join (ipython_dir st) "extensions" :: sys_path st) m)
      as [m'|];
    try destruct (load_hook m') as [[|e']|] eqn:Hl;
    cbn [state_of res_of events_of fst snd app]; fields;
    (split; [reflexivity|]); (split; [reflexivity|]); (split; [split|]).
  all: try (intros v m2 Hv Heq;
            first [ discriminate Hv
                  | discriminate Heq
                  | injection Heq as <-;
                    (split; [apply lookup_insert_eq|]); intros [b Hb];
                    first [ congruence
                          | apply elem_of_union; right; apply elem_of_singleton;
                            reflexivity
                          | exact Hin ] ]).
  all: try (intros Hmem;
            first [ left; discriminate
                  | right; exists m'; split; [reflexivity | assumption]
                  | exfalso; apply elem_of_difference in Hmem as [_ Hmem];
                    apply Hmem; apply elem_of_singleton; reflexivity ]).
  all: intros [Hne | (m2 & Heq & Hhook)];
    first [ congruence
          | apply elem_of_union; right; apply elem_of_singleton; reflexivity
          | exact Hin ].
Qed.

(** C7, as the code has it: for [id] not in [loaded], or in [loaded] but
    absent from the module registry, [reload_extension(id)] runs
    [load_extension(id)] (same final state, [loaded] included, same events,
    same exception if one is raised) and drops its value: it returns
    [None] where [load_extension] returns a status string. *)
Theorem reload_extension_as_load (h : host) (id : string) (st : state) :
  id ∉ loaded st \/ sys_modules st !! id = None ->
  state_of (reload_extension h id st) = state_of (load_extension h id st) /\
  events_of (reload_extension h id st) = events_of (load_extension h id st) /\
  res_of (reload_extension h id st) =
    match res_of (load_extension h id st) with
    | Ok _ => Ok PyNone
    | Err e => Err e
    end.
Proof.
  intros Hcase. rewrite (reload_extension_delegates h id st Hcase).
  unfold discard, res_of, state_of, events_of. simpl. auto.
Qed.

(** ** Paths *)

Section PathFacts.

Import Path.

Lemma chars_str (l : list ascii) : chars (str l) = l.
Proof. apply list_ascii_of_string_of_list_ascii. Qed.

Lemma str_chars (s : string) : str (chars s) = s.
Proof. apply string_of_list_ascii_of_string. Qed.

Lemma chars_app (a b : string) : chars (a +:+ b) = chars a ++ chars b.
Proof.
  induction a as [|c a IH]; simpl; [reflexivity|].
  unfold chars in *. simpl. f_equal. exact IH.
Qed.

Lemma prefix_str_app (a b : list ascii) : String.prefix (str a) (str (a ++ b)) = true.
Proof.
  induction a as [|c a IH]; simpl.
  - destruct (str b); reflexivity.
  - destruct (ascii_dec c c); [exact IH | congruence].
Qed.

(** A tail slice of a path is a suffix of it. *)
Lemma endswith_from (k : Z) (p : string) : endswith p (from k p) = true.
Proof.
  unfold endswith, from. rewrite chars_str.
  rewrite <- (take_drop (Z.to_nat k) (chars p)) at 2.
  rewrite rev_app_distr. apply prefix_str_app.
Qed.

Lemma endswith_empty (p : string) : endswith p "" = true.
Proof. unfold endswith. simpl. destruct (str (rev (chars p))); reflexivity. Qed.

(** The extension [splitext] returns is a suffix of the path. *)
Lemma endswith_splitext (p : string) : endswith p (snd (splitext p)) = true.
Proof.
  unfold splitext.
  destruct (rfind "." p >? rfind "/" p); [|apply endswith_empty].
  destruct (existsb _ _); [apply endswith_from | apply endswith_empty].
Qed.

Example splitext_nested : splitext "a/b.c/ext.tar.py" = ("a/b.c/ext.tar", ".py").
Proof. reflexivity. Qed.

Example splitext_hidden : splitext "pkg/.py" = ("pkg/.py", "").
Proof. reflexivity. Qed.

Example splitext_dots : splitext "..zip" = ("..zip", "").
Proof. reflexivity. Qed.

Example basename_path : basename "/tmp/dl/ext.py" = "ext.py".
Proof. reflexivity. Qed.

Example split_path : split "/" "/dl/ext.py" = [""; "dl"; "ext.py"].
Proof. reflexivity. Qed.

Example join_relative : join "/home/u/.ipython" "extensions" = "/home/u/.ipython/extensions".
Proof. reflexivity. Qed.

Example join_trailing : join "/home/u/.ipython/" "extensions" = "/home/u/.ipython/extensions".
Proof. reflexivity. Qed.

Example join_absolute : join "/home/u/.ipython/extensions" "/tmp/x.py" = "/tmp/x.py".
Proof. reflexivity. Qed.

End PathFacts.

(** The extension directory is a proper directory name: it is not empty
    and does not end in a separator, whatever [ipython_dir] is. *)
Lemma extension_dir_shape (st : state) :
  String.eqb (ipython_extension_dir st) "" = false /\
  Path.endswith (ipython_extension_dir st) "/" = false.
Proof.
  assert (forall x y : string, y = "extensions" \/ y = "/extensions" ->
    String.eqb (x +:+ y) "" = false /\ Path.endswith (x +:+ y) "/" = false)
    as Hshape.
  { intros x y Hy. split.
    - destruct x; destruct Hy; subst; reflexivity.
    - unfold Path.endswith. rewrite chars_app, rev_app_distr.
      destruct Hy; subst; reflexivity. }
  unfold ipython_extension_dir, Path.join.
  change (Path.startswith "extensions" "/") with false. cbv iota.
  destruct (String.eqb (ipython_dir st) "" || Path.endswith (ipython_dir st) "/");
    apply Hshape; auto.
Qed.

(** Joining a relative name onto the extension directory puts a separator
    between them; an absolute name replaces the directory. *)
Lemma join_extension_dir (st : state) (f : string) :
  Path.join (ipython_extension_dir st) f =
    if Path.startswith f "/" then f
    else ipython_extension_dir st +:+ "/" +:+ f.
Proof.
  destruct (extension_dir_shape st) as [Hne Hsep].
  unfold Path.join. rewrite Hne, Hsep. reflexivity.
Qed.

(** ** Installing *)

Lemma ensure_dir_exists_eq (dir : string) (st : state) :
  ensure_dir_exists dir st =
    match fs st !! dir with
    | None => (Ok tt, set_fs (insert dir Dir) st, [EvMkdir dir])
    | Some _ => (Ok tt, st, [])
    end.
Proof.
  unfold ensure_dir_exists, bind, gets, ret, emit, modify. simpl.
  destruct (fs st !! dir); reflexivity.
Qed.

(** Creating the extension directory does not change what is a file. *)
Lemma is_local_ensure_dir_exists (url dir : string) (st : state) :
  is_local url (state_of (ensure_dir_exists dir st)) = is_local url st.
Proof.
  rewrite ensure_dir_exists_eq. unfold is_local, state_of.
  destruct (fs st !! dir) eqn:Hdir; simpl; [reflexivity|].
  destruct (decide (dir = url)) as [->|Hne].
  - rewrite lookup_insert_eq, Hdir. reflexivity.
  - rewrite lookup_insert_ne by assumption. reflexivity.
Qed.

Lemma isfile_eq (url : string) (st : state) :
  isfile url st = (Ok (is_local url st), st, []).
Proof. reflexivity. Qed.

Lemma install_extension_eq (h : host) (url : string) (filename : option string)
    (st : state) :
  install_extension h url filename st =
    let dir := ipython_extension_dir st in
    let pre := ensure_dir_exists dir st in
    let name := destination_name h url filename st in
    if allowed_extension name then
      after (events_of pre)
        (bind (snd (source_of h url (is_local url st)) url (Path.join dir name))
              (fun _ => ret (PyStr (Path.join dir name))) (state_of pre))
    else
      (Err (ValueError "The file must have a .py or .zip extension" name),
       state_of pre, events_of pre).
Proof.
  cbv zeta. unfold destination_name.
  rewrite <- (is_local_ensure_dir_exists url (ipython_extension_dir st) st).
  unfold install_extension. rewrite bind_gets.
  destruct (ensure_dir_exists (ipython_extension_dir st) st)
    as [[[[]|e] st1] ev1] eqn:Hpre.
  2: { rewrite ensure_dir_exists_eq in Hpre.
       destruct (fs st !! ipython_extension_dir st); discriminate. }
  assert (ipython_extension_dir st1 = ipython_extension_dir st) as Hdir.
  { rewrite ensure_dir_exists_eq in Hpre.
    destruct (fs st !! ipython_extension_dir st); inversion Hpre; reflexivity. }
  rewrite (bind_ok _ _ _ _ _ _ Hpre).
  rewrite (bind_ok _ _ _ _ _ _ (isfile_eq url st1)), after_nil.
  unfold state_of, events_of. cbn [fst snd].
  destruct (allowed_extension _); cbn [negb].
  - rewrite bind_gets, Hdir. reflexivity.
  - unfold after, raise, res_of, state_of, events_of. cbn [fst snd].
    rewrite app_nil_r. reflexivity.
Qed.

(** A name that ends in neither allowed extension is not accepted. *)
Lemma allowed_extension_endswith (name : string) :
  allowed_extension name = true ->
  Path.endswith name ".py" = true \/ Path.endswith name ".zip" = true.
Proof.
  unfold allowed_extension. cbn [existsb]. rewrite orb_false_r.
  pose proof (endswith_splitext name) as Hsuf.
  intros [Heq | Heq]%orb_true_iff; apply String.eqb_eq in Heq;
    rewrite Heq in Hsuf; auto.
Qed.

(** Either copier makes one attempt, which it announces first; its answer
    decides the outcome and the file system, and nothing else changes. *)
Lemma copier_eq (h : host) (url dest : string) (local : bool) (st : state) :
  snd (source_of h url local) url dest st =
    (fst (copier_answer h url dest local st),
     set_fs (fun _ => snd (copier_answer h url dest local st)) st,
     [if local then EvCopy url dest else EvDownload url dest]).
Proof.
  unfold source_of, copier_answer. destruct local; cbn [snd].
  - unfold copyfile. rewrite (bind_ok _ _ st st tt [EvCopy url dest]) by reflexivity.
    rewrite bind_gets. unfold transfer.
    rewrite (bind_ok _ _ st (set_fs (fun _ => snd (shutil_copyfile h (fs st) url dest)) st)
               tt []) by reflexivity.
    rewrite after_nil.
    destruct (fst (shutil_copyfile h (fs st) url dest)) as [[]|e]; reflexivity.
  - unfold py_urlretrieve.
    rewrite (bind_ok _ _ st st tt [EvDownload url dest]) by reflexivity.
    rewrite bind_gets. unfold transfer.
    rewrite (bind_ok _ _ st (set_fs (fun _ => snd (urlretrieve h (fs st) url dest)) st)
               tt []) by reflexivity.
    rewrite after_nil.
    destruct (fst (urlretrieve h (fs st) url dest)) as [[]|e]; reflexivity.
Qed.


(** With an explicit [filename] that has an allowed extension, the copier
    is run on [os.path.join(extension_dir, filename)], whatever name the
    source suggests, and a returning call returns exactly that path.  The
    join is [extension_dir/filename] for a relative [filename]; an absolute
    [filename] is its own join. *)
Lemma install_extension_named
    (h : host) (url f : string) (st st' : state)
    (r : result pyval) (ev : list event) :
  allowed_extension f = true ->
  install_extension h url (Some f) st = (r, st', ev) ->
  let dir := ipython_extension_dir st in
  let dest := Path.join dir f in
  dest = (if Path.startswith f "/" then f else dir +:+ "/" +:+ f) /\
  (EvCopy url dest ∈ ev \/ EvDownload url dest ∈ ev) /\
  (forall v, r = Ok v -> v = PyStr dest).
Proof.
  intros Hok Hrun. cbv zeta. split; [apply join_extension_dir|].
  rewrite install_extension_eq in Hrun. cbv zeta in Hrun.
  unfold destination_name in Hrun. rewrite Hok in Hrun.
  set (dest := Path.join (ipython_extension_dir st) f) in *.
  set (pre := ensure_dir_exists (ipython_extension_dir st) st) in *.
  pose proof (copier_eq h url dest (is_local url st) (state_of pre)) as Hcopy.
  destruct (fst (copier_answer h url dest (is_local url st) (state_of pre)))
    as [[]|e];
    [rewrite (bind_ok _ _ _ _ _ _ Hcopy) in Hrun
    |rewrite (bind_err _ _ _ _ _ _ Hcopy) in Hrun];
    unfold after, ret, res_of, state_of, events_of in Hrun; cbn [fst snd] in Hrun;
    inversion Hrun; subst; clear Hrun;
    (split;
     [ rewrite !elem_of_app; destruct (is_local url st);
       [left | right]; right; apply list_elem_of_here || (left; apply list_elem_of_here)
     | intros v Hv; inversion Hv; reflexivity ]).
Qed.

(** ** The invariant of [loaded] *)

Lemma load_extension_replay (h : host) (id : string) (st : state) :
  loaded (state_of (load_extension h id st)) =
    replay (loaded st) (marks id (events_of (load_extension h id st))).
Proof.
  destruct (decide (id ∈ loaded st)) as [Hin|Hnot].
  { rewrite load_extension_already by assumption. reflexivity. }
  destruct (sys_modules st !! id) as [m|] eqn:Hm.
  - rewrite (load_extension_registered h id st m Hnot Hm). unfold finish_load.
    destruct (load_hook m) as [[|e]|]; reflexivity.
  - rewrite (load_extension_fresh h id st Hnot Hm). cbv zeta.
    destruct (import_module h (fs st) (ipython_extension_dir st :: sys_path st) id)
      as [m|]; [|reflexivity].
    destruct (mod_file m) as [file|]; [|reflexivity].
    unfold finish_load, warning.
    destruct (Path.startswith file (ipython_extension_dir st));
      destruct (load_hook m) as [[|e]|]; reflexivity.
Qed.

Lemma unload_extension_replay (id : string) (st : state) :
  loaded (state_of (unload_extension id st)) =
    replay (loaded st) (marks id (events_of (unload_extension id st))).
Proof.
  destruct (decide (id ∈ loaded st)) as [Hin|Hnot].
  2: { rewrite unload_extension_not_loaded by assumption. reflexivity. }
  destruct (sys_modules st !! id) as [m|] eqn:Hm.
  - rewrite (unload_extension_registered id st m Hin Hm).
    destruct (unload_hook m) as [[|e]|]; reflexivity.
  - rewrite (unload_extension_unregistered id st Hin Hm). reflexivity.
Qed.

Lemma reload_extension_replay (h : host) (id : string) (st : state) :
  loaded (state_of (reload_extension h id st)) =
    replay (loaded st) (marks id (events_of (reload_extension h id st))).
Proof.
  destruct (decide (id ∈ loaded st)) as [Hin|Hnot].
  2: { rewrite reload_extension_delegates by auto.
       apply (load_extension_replay h id st). }
  destruct (sys_modules st !! id) as [m|] eqn:Hm.
  2: { rewrite reload_extension_delegates by auto.
       apply (load_extension_replay h id st). }
  rewrite (reload_extension_registered h id st m Hin Hm).
  unfold finish_reload, ipython_extension_dir. fields.
  destruct (unload_hook m) as [[|e]|];
    destruct (reload h (fs st) (Path.join (ipython_dir st) "extensions" :: sys_path st) m)
      as [m'|]; try reflexivity;
    destruct (load_hook m') as [[|e']|]; reflexivity.
Qed.

Lemma install_extension_loaded (h : host) (url : string)
    (filename : option string) (st : state) :
  loaded (state_of (install_extension h url filename st)) = loaded st.
Proof.
  rewrite install_extension_eq. cbv zeta.
  assert (loaded (state_of (ensure_dir_exists (ipython_extension_dir st) st))
          = loaded st) as Hpre.
  { rewrite ensure_dir_exists_eq.
    destruct (fs st !! ipython_extension_dir st); reflexivity. }
  destruct (allowed_extension _); [|exact Hpre].
  set (pre := ensure_dir_exists (ipython_extension_dir st) st) in *.
  set (dest := Path.join _ _).
  pose proof (copier_eq h url dest (is_local url st) (state_of pre)) as Hcopy.
  destruct (fst (copier_answer h url dest (is_local url st) (state_of pre)))
    as [[]|e];
    [rewrite (bind_ok _ _ _ _ _ _ Hcopy) | rewrite (bind_err _ _ _ _ _ _ Hcopy)];
    unfold after, ret, state_of in *; cbn [fst snd]; exact Hpre.
Qed.

Lemma on_ipython_dir_changed_loaded (st : state) :
  loaded (state_of (_on_ipython_dir_changed st)) = loaded st.
Proof.
  unfold _on_ipython_dir_changed. rewrite bind_gets, ensure_dir_exists_eq.
  destruct (fs st !! ipython_extension_dir st); reflexivity.
Qed.

Lemma perform_replay (h : host) (c : call) (st : state) :
  loaded (state_of (perform h c st)) =
    replay (loaded st) (completions (c, events_of (perform h c st))).
Proof.
  destruct c as [id|id|id|url filename|d]; unfold completions; cbn [fst snd target perform].
  - apply load_extension_replay.
  - apply unload_extension_replay.
  - apply reload_extension_replay.
  - apply install_extension_loaded.
  - rewrite (bind_ok _ _ st (set_ipython_dir d st) tt []) by reflexivity.
    rewrite after_nil.
    pose proof (on_ipython_dir_changed_loaded (set_ipython_dir d st)) as Hld.
    destruct (_on_ipython_dir_changed (set_ipython_dir d st))
      as [[[[]|e] s1] ev1] eqn:Hrun.
    + rewrite (bind_ok _ _ _ _ _ _ Hrun). exact Hld.
    + rewrite (bind_err _ _ _ _ _ _ Hrun). exact Hld.
Qed.








(** ** The theorems at work in the demo world *)

(** Decide a closed decidable proposition by computation. *)
Ltac by_computation := apply (bool_decide_unpack _); vm_compute; exact I.

Example demo_load_hello :
  load_extension Demo.world "hello" Demo.fresh =
    (Ok PyNone, Demo.with_hello,
     [EvImport "hello"; EvHook LoadHook Demo.hello Returns]).
Proof. vm_compute. reflexivity. Qed.

Example demo_load_stubborn :
  state_of (load_extension Demo.world "stubborn" Demo.fresh) = Demo.with_stubborn.
Proof. vm_compute. reflexivity. Qed.

Example demo_install_local :
  install_extension Demo.world "/tmp/ext.py" None Demo.fresh =
    (Ok (PyStr "/home/u/.ipython/extensions/ext.py"),
     set_fs (fun files =>
               <["/home/u/.ipython/extensions/ext.py" := File "# local"]>
                 (<["/home/u/.ipython/extensions" := Dir]> files)) Demo.fresh,
     [EvMkdir "/home/u/.ipython/extensions";
      EvCopy "/tmp/ext.py" "/home/u/.ipython/extensions/ext.py"]).
Proof. vm_compute. reflexivity. Qed.

Example demo_install_url :
  res_of (install_extension Demo.world "http://example.org/dl/ext.py" None Demo.fresh) =
    Ok (PyStr "/home/u/.ipython/extensions/ext.py").
Proof. vm_compute. reflexivity. Qed.

Example demo_session :
  elements (loaded (fst (session Demo.world
    [CallLoad "hello"; CallLoad "bare"; CallLoad "fragile"; CallReload "stubborn";
     CallUnload "stubborn"; CallReload "hello"; CallUnload "hello"]
    Demo.fresh))) = ["stubborn"; "hello"].
Proof. vm_compute. reflexivity. Qed.

Lemma load_extension_adds_then_already_loaded_witness :
  (exists st' ev,
     load_extension Demo.world "hello" Demo.fresh = (Ok PyNone, st', ev) /\
     loaded st' = loaded Demo.fresh ∪ {["hello"]} /\ "hello" ∈ loaded st' /\
     load_extension Demo.world "hello" st' = (Ok (PyStr "already loaded"), st', [])) /\
  load_extension Demo.world "hello" Demo.with_hello =
    (Ok (PyStr "already loaded"), Demo.with_hello, []).
Proof.
  split.
  - apply (proj1 (load_extension_adds_then_already_loaded Demo.world "hello"
                    Demo.fresh Demo.hello)).
    + by_computation.
    + apply resolves_imported; [reflexivity | reflexivity | eexists; reflexivity].
    + reflexivity.
  - apply (proj2 (proj2 (load_extension_adds_then_already_loaded Demo.world "hello"
                           Demo.with_hello Demo.hello))).
    by_computation.
Defined.

Lemma load_extension_no_load_function_witness :
  exists st' ev,
    load_extension Demo.world "bare" Demo.fresh =
      (Ok (PyStr "no load function"), st', ev) /\
    loaded st' = loaded Demo.fresh /\ "bare" ∉ loaded st'.
Proof.
  apply (load_extension_no_load_function Demo.world "bare" Demo.fresh Demo.bare).
  - by_computation.
  - apply resolves_imported; [reflexivity | reflexivity | eexists; reflexivity].
  - reflexivity.
Defined.

Lemma unload_extension_status_strings_witness :
  unload_extension "hello" Demo.fresh = (Ok (PyStr "not loaded"), Demo.fresh, []) /\
  unload_extension "hello" Demo.reloaded =
    (Ok (PyStr "no unload function"), Demo.reloaded, []) /\
  "hello" ∈ loaded (state_of (unload_extension "hello" Demo.reloaded)).
Proof.
  split.
  - apply (unload_extension_status_strings "hello" Demo.fresh). by_computation.
  - apply (proj2 (unload_extension_status_strings "hello" Demo.reloaded) Demo.hello2).
    + by_computation.
    + reflexivity.
    + reflexivity.
Defined.

Lemma unload_extension_unregistered_noop_witness :
  unload_extension "hello" Demo.orphan = (Ok PyNone, Demo.orphan, []) /\
  "hello" ∈ loaded (state_of (unload_extension "hello" Demo.orphan)).
Proof.
  apply (unload_extension_unregistered_noop "hello" Demo.orphan).
  - by_computation.
  - reflexivity.
Defined.

Lemma hook_exception_keeps_loaded_witness :
  (exists st' ev,
     load_extension Demo.world "fragile" Demo.fresh =
       (Err (HookException "RuntimeError"), st', ev) /\
     loaded st' = loaded Demo.fresh /\ "fragile" ∉ loaded st') /\
  (exists st' ev,
     unload_extension "stubborn" Demo.with_stubborn =
       (Err (HookException "RuntimeError"), st', ev) /\
     loaded st' = loaded Demo.with_stubborn /\ "stubborn" ∈ loaded st').
Proof.
  split.
  - apply (proj1 (hook_exception_keeps_loaded Demo.world "fragile" Demo.fresh
                    Demo.fragile "RuntimeError")).
    + by_computation.
    + apply resolves_imported; [reflexivity | reflexivity | eexists; reflexivity].
    + reflexivity.
  - apply (proj2 (hook_exception_keeps_loaded Demo.world "stubborn"
                    Demo.with_stubborn Demo.stubborn "RuntimeError")).
    + by_computation.
    + reflexivity.
    + reflexivity.
Defined.

(** C3 fails as stated: when the reloaded module defines a load hook that
    raises, the unload hook and the reload have run, the exception
    propagates, and [id] is not in [loaded] afterwards. *)
Lemma reload_extension_unloads_on_failure :
  "hello" ∈ loaded Demo.with_hello /\
  sys_modules Demo.with_hello !! "hello" = Some Demo.hello /\
  res_of (reload_extension Corner.world "hello" Demo.with_hello) =
    Err (HookException "NameError") /\
  events_of (reload_extension Corner.world "hello" Demo.with_hello) =
    [EvHook UnloadHook Demo.hello Returns; EvReload Demo.hello;
     EvHook LoadHook Corner.broken (Raises "NameError")] /\
  sys_modules (state_of (reload_extension Corner.world "hello" Demo.with_hello))
    !! "hello" = Some Corner.broken /\
  is_Some (load_hook Corner.broken) /\
  ("hello" ∉ loaded (state_of (reload_extension Corner.world "hello" Demo.with_hello))).
Proof.
  split; [by_computation|]. split; [reflexivity|]. split; [reflexivity|].
  split; [reflexivity|]. split; [reflexivity|]. split; [eexists; reflexivity|].
  by_computation.
Qed.

Lemma reload_extension_order_witness :
  events_of (reload_extension Demo.world "hello" Demo.with_hello) =
    [EvHook UnloadHook Demo.hello Returns; EvReload Demo.hello;
     EvHook LoadHook Demo.hello2 Returns] /\
  res_of (reload_extension Demo.world "hello" Demo.with_hello) = Ok PyNone /\
  "hello" ∈ loaded (state_of (reload_extension Demo.world "hello" Demo.with_hello)).
Proof.
  assert ("hello" ∈ loaded Demo.with_hello) as Hin by by_computation.
  destruct (reload_extension_order Demo.world "hello" Demo.with_hello Demo.hello
              Hin eq_refl) as (Hev & Hres & _ & Hok).
  split; [exact Hev|]. split; [exact Hres|].
  apply (Hok PyNone Demo.hello2 Hres eq_refl). eexists. reflexivity.
Defined.

(** C7 fails as stated: for a module without a load hook that is not
    loaded, [load_extension] returns "no load function" and
    [reload_extension] returns [None]. *)
Lemma reload_extension_drops_status :
  ("bare" ∉ loaded Demo.fresh) /\
  res_of (load_extension Demo.world "bare" Demo.fresh) =
    Ok (PyStr "no load function") /\
  res_of (reload_extension Demo.world "bare" Demo.fresh) = Ok PyNone /\
  res_of (reload_extension Demo.world "bare" Demo.fresh) <>
    res_of (load_extension Demo.world "bare" Demo.fresh).
Proof.
  split; [by_computation|]. split; [reflexivity|]. split; [reflexivity|].
  vm_compute. discriminate.
Qed.

Lemma reload_extension_as_load_witness :
  state_of (reload_extension Demo.world "bare" Demo.fresh) =
    state_of (load_extension Demo.world "bare" Demo.fresh) /\
  events_of (reload_extension Demo.world "bare" Demo.fresh) =
    events_of (load_extension Demo.world "bare" Demo.fresh) /\
  res_of (reload_extension Demo.world "bare" Demo.fresh) =
    match res_of (load_extension Demo.world "bare" Demo.fresh) with
    | Ok _ => Ok PyNone
    | Err e => Err e
    end.
Proof.
  apply (reload_extension_as_load Demo.world "bare" Demo.fresh).
  left. by_computation.
Defined.



Example install_extension_named_relative :
  Path.join (ipython_extension_dir Demo.fresh) "mine.py" =
    "/home/u/.ipython/extensions/mine.py" /\
  forall v,
    res_of (install_extension Demo.world "/tmp/ext.py" (Some "mine.py") Demo.fresh)
      = Ok v ->
    v = PyStr (Path.join (ipython_extension_dir Demo.fresh) "mine.py").
Proof.
  destruct (install_extension Demo.world "/tmp/ext.py" (Some "mine.py") Demo.fresh)
    as [[r st'] ev] eqn:Hrun.
  destruct (install_extension_named Demo.world "/tmp/ext.py"
              "mine.py" Demo.fresh st' r ev eq_refl Hrun)
    as (Hdest & _ & Hok).
  split; [exact Hdest | exact Hok].
Qed.

(** C9: with the explicit file name "/srv/mine.py", which has an allowed
    extension, [install_extension] copies the source to "/srv/mine.py" and
    returns that path: the destination is the file name itself and lies
    outside the extension directory, not [extension_dir/filename]. *)
Lemma install_extension_absolute_filename :
  allowed_extension "/srv/mine.py" = true /\
  install_extension Demo.world "/tmp/ext.py" (Some "/srv/mine.py") Corner.fresh =
    (Ok (PyStr "/srv/mine.py"),
     set_fs (fun files =>
               <["/srv/mine.py" := File "# local"]>
                 (<["/home/u/.ipython/extensions" := Dir]> files)) Corner.fresh,
     [EvMkdir "/home/u/.ipython/extensions";
      EvCopy "/tmp/ext.py" "/srv/mine.py"]) /\
  "/srv/mine.py" <> ipython_extension_dir Corner.fresh +:+ "/" +:+ "/srv/mine.py" /\
  Path.startswith "/srv/mine.py" (ipython_extension_dir Corner.fresh) = false.
Proof.
  split; [reflexivity|]. split; [vm_compute; reflexivity|].
  split; [by_computation | reflexivity].
Qed.

(** C5: for the namespace package [nspkg], a module without
    [load_ipython_extension] that is not loaded and not yet imported,
    [load_extension] does not return "no load function": the import
    registers the module, and [mod.__file__.startswith] raises on its
    missing [__file__]. *)
Lemma load_extension_namespace_package :
  ("nspkg" ∉ loaded Demo.fresh) /\
  sys_modules Demo.fresh !! "nspkg" = None /\
  import_module Corner.world (fs Demo.fresh)
    (ipython_extension_dir Demo.fresh :: sys_path Demo.fresh) "nspkg"
    = Some Corner.nspkg /\
  load_hook Corner.nspkg = None /\
  load_extension Corner.world "nspkg" Demo.fresh =
    (Err (AttributeError "startswith"),
     set_sys_modules (insert "nspkg" Corner.nspkg) Demo.fresh,
     [EvImport "nspkg"]).
Proof.
  split; [by_computation|]. split; [reflexivity|]. split; [reflexivity|].
  split; [reflexivity|]. vm_compute. reflexivity.
Qed.

(** ** Further properties of loading and unloading *)


(** X2: loading an extension that was not loaded and then unloading it,
    both hooks returning, gives back the [loaded] set there was, and the
    two hooks are the last two events, load before unload. *)
Theorem load_then_unload_restores_loaded
    (h : host) (id : string) (st : state) (m : module) :
  id ∉ loaded st -> resolves h st id m ->
  load_hook m = Some Returns -> unload_hook m = Some Returns ->
  exists st1 st2 ev1,
    load_extension h id st =
      (Ok PyNone, st1, ev1 ++ [EvHook LoadHook m Returns]) /\
    unload_extension id st1 = (Ok PyNone, st2, [EvHook UnloadHook m Returns]) /\
    loaded st2 = loaded st /\
    sys_modules st2 !! id = Some m.
Proof.
  intros Hnot Hres Hload Hunload.
  assert (exists st0 ev1,
    load_extension h id st = after ev1 (finish_load id m st0) /\
    loaded st0 = loaded st /\ sys_modules st0 !! id = Some m)
    as (st0 & ev1 & Heq & Hld & Hreg).
  { destruct Hres as [Hreg | Hnone Himp [file Hfile]].
    - exists st, []. rewrite after_nil.
      rewrite (load_extension_registered h id st m Hnot Hreg). auto.
    - exists (imported h id m st),
        (EvImport id :: warning id file (ipython_extension_dir st)).
      rewrite (load_extension_fresh h id st Hnot Hnone). cbv zeta.
      rewrite Himp, Hfile. unfold imported. fields. rewrite lookup_insert_eq. auto. }
  set (st1 := set_loaded (fun s => s ∪ {[id]}) st0).
  assert (id ∈ loaded st1) as Hin1 by (subst st1; fields; set_solver).
  exists st1, (set_loaded (fun s => s ∖ {[id]}) st1), ev1.
  rewrite Heq. unfold finish_load, after. rewrite Hload.
  unfold res_of, state_of, events_of. cbn [fst snd]. fold st1.
  rewrite (unload_extension_registered id st1 m Hin1 Hreg), Hunload.
  repeat split; [|exact Hreg].
  subst st1. fields. rewrite Hld. set_solver.
Qed.



(** X5: the legacy-location warning is printed exactly when a fresh import
    finds the module's file under the extension directory, and then once,
    right after the import and before any hook. *)
Theorem load_extension_warning
    (h : host) (id file : string) (st : state) (m : module) :
  id ∉ loaded st -> sys_modules st !! id = None ->
  import_module h (fs st) (ipython_extension_dir st :: sys_path st) id = Some m ->
  mod_file m = Some file ->
  events_of (load_extension h id st) =
    EvImport id ::
    (if Path.startswith file (ipython_extension_dir st)
     then [EvPrint id (ipython_extension_dir st)] else [])
    ++ hook_events LoadHook m.
Proof.
  intros Hnot Hnone Himp Hfile.
  rewrite (load_extension_fresh h id st Hnot Hnone). cbv zeta.
  rewrite Himp, Hfile. unfold finish_load, warning, hook_events, hook_of.
  destruct (Path.startswith file (ipython_extension_dir st));
    destruct (load_hook m) as [[|e]|]; reflexivity.
Qed.

(** X6: a load that fails after the import leaves the module registered:
    when a freshly imported module has no load hook, the first
    [load_extension] imports it and answers "no load function", and a
    second one answers the same without importing or printing anything. *)
Theorem load_extension_again_without_import
    (h : host) (id : string) (st : state) (m : module) :
  id ∉ loaded st -> sys_modules st !! id = None ->
  import_module h (fs st) (ipython_extension_dir st :: sys_path st) id = Some m ->
  is_Some (mod_file m) -> load_hook m = None ->
  exists st1 ev1,
    load_extension h id st = (Ok (PyStr "no load function"), st1, EvImport id :: ev1) /\
    sys_modules st1 !! id = Some m /\
    load_extension h id st1 = (Ok (PyStr "no load function"), st1, []).
Proof.
  intros Hnot Hnone Himp [file Hfile] Hhook.
  exists (imported h id m st),
    (warning id file (ipython_extension_dir st)).
  rewrite (load_extension_fresh h id st Hnot Hnone). cbv zeta.
  rewrite Himp, Hfile. unfold finish_load, after. rewrite Hhook.
  unfold res_of, state_of, events_of. cbn [fst snd]. rewrite app_nil_r.
  assert (sys_modules (imported h id m st) !! id = Some m) as Hreg
    by (unfold imported; fields; apply lookup_insert_eq).
  repeat split; [exact Hreg|].
  rewrite (load_extension_registered h id (imported h id m st) m
             Hnot Hreg).
  unfold finish_load. rewrite Hhook. reflexivity.
Qed.

(** ** What a call may change in [loaded] *)

Lemma replay_marks_other (id id' : string) (ev : list event) (s : gset string) :
  id' <> id -> (id' ∈ replay s (marks id ev) <-> id' ∈ s).
Proof.
  intros Hne. revert s. induction ev as [|e ev IH]; intros s; [reflexivity|].
  unfold marks. cbn [omap list_omap]. fold (marks id ev).
  destruct (completed e) as [k|]; cbn [fmap option_fmap option_map]; [|apply IH].
  cbn [replay foldl]. fold (replay (replay1 s (id, k)) (marks id ev)).
  rewrite IH. unfold replay1. cbn [fst snd].
  destruct k; [rewrite elem_of_union | rewrite elem_of_difference];
    rewrite ?elem_of_singleton, ?not_elem_of_singleton; tauto.
Qed.

(** X7: a call changes the status of its own extension only: whatever
    [load_extension], [unload_extension] or [reload_extension] do for [id],
    every other identifier is in [loaded] after the call exactly if it was
    before. *)
Theorem perform_other_extensions
    (h : host) (c : call) (st : state) (id id' : string) :
  target c = Some id -> id' <> id ->
  (id' ∈ loaded (state_of (perform h c st)) <-> id' ∈ loaded st).
Proof.
  intros Htarget Hne. rewrite perform_replay. unfold completions.
  cbn [fst snd]. rewrite Htarget. apply replay_marks_other. exact Hne.
Qed.


Lemma unload_extension_shrinks (id : string) (st : state) :
  loaded (state_of (unload_extension id st)) ⊆ loaded st /\
  sys_modules (state_of (unload_extension id st)) = sys_modules st.
Proof.
  destruct (decide (id ∈ loaded st)) as [Hin|Hnot].
  2: { rewrite unload_extension_not_loaded by assumption. split; reflexivity. }
  destruct (sys_modules st !! id) as [m|] eqn:Hm.
  - rewrite (unload_extension_registered id st m Hin Hm).
    destruct (unload_hook m) as [[|e]|]; cbn [state_of fst snd]; fields;
      (split; [|reflexivity]);
      first [reflexivity | apply subseteq_difference_l; reflexivity].
  - rewrite (unload_extension_unregistered id st Hin Hm). split; reflexivity.
Qed.


(** X9: [unload_extension] runs nothing but the unload hook: it never
    imports, reloads or prints, and never calls a load hook; and
    [load_extension] never calls an unload hook and never reloads. *)
Theorem hooks_stay_on_their_side
    (h : host) (id : string) (st : state) (e : event) :
  (e ∈ events_of (unload_extension id st) ->
   exists m b, e = EvHook UnloadHook m b /\ sys_modules st !! id = Some m) /\
  (e ∈ events_of (load_extension h id st) ->
   (forall m b, e <> EvHook UnloadHook m b) /\ (forall m, e <> EvReload m)).
Proof.
  split.
  - destruct (decide (id ∈ loaded st)) as [Hin|Hnot].
    2: { rewrite unload_extension_not_loaded by assumption.
         intros Hin. apply not_elem_of_nil in Hin. contradiction. }
    destruct (sys_modules st !! id) as [m|] eqn:Hm.
    + rewrite (unload_extension_registered id st m Hin Hm).
      destruct (unload_hook m) as [[|x]|]; cbn [events_of snd]; intros He;
        first [ apply not_elem_of_nil in He; contradiction
              | apply list_elem_of_singleton in He; subst; eauto ].
    + rewrite (unload_extension_unregistered id st Hin Hm).
      intros He. apply not_elem_of_nil in He. contradiction.
  - destruct (decide (id ∈ loaded st)) as [Hin|Hnot].
    { rewrite load_extension_already by assumption.
      intros He. apply not_elem_of_nil in He. contradiction. }
    destruct (sys_modules st !! id) as [m|] eqn:Hm.
    + rewrite (load_extension_registered h id st m Hnot Hm). unfold finish_load.
      destruct (load_hook m) as [[|x]|]; cbn [events_of snd]; intros He;
        first [ apply not_elem_of_nil in He; contradiction
              | apply list_elem_of_singleton in He; subst; split; discriminate ].
    + rewrite (load_extension_fresh h id st Hnot Hm). cbv zeta.
      destruct (import_module h (fs st) (ipython_extension_dir st :: sys_path st) id)
        as [m|].
      2: { cbn [events_of snd]. intros He.
           apply list_elem_of_singleton in He; subst; split; discriminate. }
      destruct (mod_file m) as [file|].
      2: { cbn [events_of snd]. intros He.
           apply list_elem_of_singleton in He; subst; split; discriminate. }
      unfold finish_load, after, warning.
      destruct (Path.startswith file (ipython_extension_dir st));
        destruct (load_hook m) as [[|x]|]; cbn [events_of res_of state_of fst snd app];
        intros He;
        repeat (apply elem_of_cons in He as [He | He];
                [subst; split; discriminate|]);
        apply not_elem_of_nil in He; contradiction.
Qed.

(** ** Further properties of reloading *)

(** X10: [reload_extension] has no status strings: whenever it returns, in
    either branch, it returns [None]. *)
Theorem reload_extension_returns_none
    (h : host) (id : string) (st : state) (v : pyval) :
  res_of (reload_extension h id st) = Ok v -> v = PyNone.
Proof.
  destruct (sys_modules st !! id) as [m|] eqn:Hm;
    [destruct (decide (id ∈ loaded st)) as [Hin|Hnot]|].
  - rewrite (reload_extension_registered h id st m Hin Hm).
    unfold finish_reload, after, ipython_extension_dir. fields.
    destruct (unload_hook m) as [[|e]|];
      try destruct (reload h (fs st) _ m) as [m'|];
      try destruct (load_hook m') as [[|e']|];
      cbn [res_of fst snd]; intros Hv; inversion Hv; reflexivity.
  - rewrite reload_extension_delegates by auto. unfold discard.
    cbn [res_of fst snd]. fold (res_of (load_extension h id st)).
    destruct (res_of (load_extension h id st)); intros Hv; inversion Hv; reflexivity.
  - rewrite reload_extension_delegates by auto. unfold discard.
    cbn [res_of fst snd]. fold (res_of (load_extension h id st)).
    destruct (res_of (load_extension h id st)); intros Hv; inversion Hv; reflexivity.
Qed.

(** X11: reloading is not all-or-nothing.  For a loaded, registered
    extension, [id] is in [loaded] after [reload_extension] exactly when
    the unload hook did not return (it is missing or it raised, so [id]
    was never removed) or the reload went through and the new load hook
    returned; so after a successful unload, a failing reload, a missing
    load hook or a raising load hook leave [id] unloaded.  Once the reload
    went through, the registry holds the reloaded module whatever its load
    hook does. *)
Theorem reload_extension_loaded_after
    (h : host) (id : string) (st : state) (m : module) :
  id ∈ loaded st -> sys_modules st !! id = Some m ->
  let reloaded := reload h (fs st) (ipython_extension_dir st :: sys_path st) m in
  let st' := state_of (reload_extension h id st) in
  (id ∈ loaded st' <->
   unload_hook m <> Some Returns \/
   exists m', reloaded = Some m' /\ load_hook m' = Some Returns) /\
  (forall m', unload_hook m = Some Returns \/ unload_hook m = None ->
     reloaded = Some m' -> sys_modules st' !! id = Some m').
Proof.
  intros Hin Hm. cbv zeta.
  rewrite (reload_extension_registered h id st m Hin Hm).
  unfold finish_reload, after, ipython_extension_dir. fields.
  destruct (unload_hook m) as [[|e]|];
    try destruct (reload h (fs st) (Path.join (ipython_dir st) "extensions" :: sys_path st) m)
      as [m'|];
    try destruct (load_hook m') as [[|e']|] eqn:Hl;
    cbn [state_of res_of fst snd]; fields;
    (split; [split|]).
  all: try (intros m2 Hcase Heq;
            first [ inversion Heq; subst; apply lookup_insert_eq
                  | discriminate
                  | destruct Hcase; discriminate ]).
  all: try (intros Hmem;
            first [ left; discriminate
                  | right; exists m'; split; [reflexivity | assumption]
                  | exfalso; apply elem_of_difference in Hmem as [_ Hmem];
                    apply Hmem; apply elem_of_singleton; reflexivity ]).
  all: intros [Hne | (m2 & Heq & Hhook)];
    first [ congruence
          | apply elem_of_union; right; apply elem_of_singleton; reflexivity
          | exact Hin ].
Qed.

(** ** Further properties of installing *)

Lemma prefix_str_weaken (s : string) (x y : list ascii) :
  String.prefix s (Path.str x) = true -> String.prefix s (Path.str (x ++ y)) = true.
Proof.
  revert s. induction x as [|c x IH]; intros s; simpl.
  - destruct s; [|discriminate]. intros _. destruct (Path.str y); reflexivity.
  - destruct s as [|a s]; [reflexivity|].
    destruct (ascii_dec a c); [apply IH | discriminate].
Qed.

Lemma endswith_app (a b suf : string) :
  Path.endswith b suf = true -> Path.endswith (a +:+ b) suf = true.
Proof.
  unfold Path.endswith. rewrite chars_app, rev_app_distr. apply prefix_str_weaken.
Qed.

(** Joining keeps the ending of the name that is joined on. *)
Lemma endswith_join (dir name suf : string) :
  Path.endswith name suf = true -> Path.endswith (Path.join dir name) suf = true.
Proof.
  intros Hsuf. unfold Path.join.
  destruct (Path.startswith name "/"); [exact Hsuf|].
  destruct (String.eqb dir "" || Path.endswith dir "/").
  - apply endswith_app. exact Hsuf.
  - apply endswith_app. apply (endswith_app "/"). exact Hsuf.
Qed.

(** What a returning [install_extension] returns. *)
Lemma install_extension_value (h : host) (url : string) (filename : option string)
    (st : state) (v : pyval) :
  res_of (install_extension h url filename st) = Ok v ->
  allowed_extension (destination_name h url filename st) = true /\
  v = PyStr (Path.join (ipython_extension_dir st)
               (destination_name h url filename st)).
Proof.
  rewrite install_extension_eq. cbv zeta.
  destruct (allowed_extension _); [|discriminate].
  set (pre := ensure_dir_exists (ipython_extension_dir st) st).
  set (dest := Path.join _ _).
  destruct (snd (source_of h url (is_local url st)) url dest (state_of pre))
    as [[[[]|e] sc] evc] eqn:Hcopy.
  - rewrite (bind_ok _ _ _ _ _ _ Hcopy). unfold after, ret, res_of.
    cbn [fst snd]. intros Hv. inversion Hv. auto.
  - rewrite (bind_err _ _ _ _ _ _ Hcopy). unfold after, res_of.
    cbn [fst snd]. discriminate.
Qed.

(** X12: every path [install_extension] returns ends in ".py" or ".zip",
    whether the name was given or taken from the source. *)
Theorem install_extension_result_extension
    (h : host) (url : string) (filename : option string) (st : state) (v : pyval) :
  res_of (install_extension h url filename st) = Ok v ->
  exists path, v = PyStr path /\
    (Path.endswith path ".py" = true \/ Path.endswith path ".zip" = true).
Proof.
  intros Hv. destruct (install_extension_value h url filename st v Hv) as [Hok ->].
  eexists. split; [reflexivity|].
  destruct (allowed_extension_endswith _ Hok) as [Hsuf | Hsuf];
    [left | right]; apply endswith_join; exact Hsuf.
Qed.

(** The state and events of an accepted install, through its copier. *)
Lemma install_extension_accepted (h : host) (url : string)
    (filename : option string) (st : state) :
  allowed_extension (destination_name h url filename st) = true ->
  let dir := ipython_extension_dir st in
  let pre := ensure_dir_exists dir st in
  let dest := Path.join dir (destination_name h url filename st) in
  let r := snd (source_of h url (is_local url st)) url dest (state_of pre) in
  state_of (install_extension h url filename st) = state_of r /\
  events_of (install_extension h url filename st) = events_of pre ++ events_of r /\
  res_of (install_extension h url filename st) =
    match res_of r with Ok _ => Ok (PyStr dest) | Err e => Err e end.
Proof.
  intros Hok. cbv zeta. rewrite install_extension_eq. cbv zeta. rewrite Hok.
  set (pre := ensure_dir_exists (ipython_extension_dir st) st).
  set (dest := Path.join _ _).
  destruct (snd (source_of h url (is_local url st)) url dest (state_of pre))
    as [[[[]|e] sc] evc] eqn:Hcopy.
  - rewrite (bind_ok _ _ _ _ _ _ Hcopy).
    unfold after, ret, res_of, state_of, events_of. cbn [fst snd].
    rewrite app_nil_r. auto.
  - rewrite (bind_err _ _ _ _ _ _ Hcopy).
    unfold after, res_of, state_of, events_of. cbn [fst snd]. auto.
Qed.


(** [install_extension] leaves the manager and the registry alone. *)
Lemma install_extension_keeps (h : host) (url : string)
    (filename : option string) (st : state) :
  let st' := state_of (install_extension h url filename st) in
  loaded st' = loaded st /\ sys_modules st' = sys_modules st.
Proof.
  cbv zeta.
  assert (loaded (state_of (ensure_dir_exists (ipython_extension_dir st) st))
            = loaded st /\
          sys_modules (state_of (ensure_dir_exists (ipython_extension_dir st) st))
            = sys_modules st) as [Hl Hm].
  { rewrite ensure_dir_exists_eq.
    destruct (fs st !! ipython_extension_dir st); split; reflexivity. }
  destruct (allowed_extension (destination_name h url filename st)) eqn:Hok.
  - destruct (install_extension_accepted h url filename st Hok) as (-> & _ & _).
    rewrite copier_eq. cbn [state_of fst snd]. fields. auto.
  - rewrite install_extension_eq. cbv zeta. rewrite Hok.
    cbn [state_of fst snd].
    fold (state_of (ensure_dir_exists (ipython_extension_dir st) st)). auto.
Qed.

(** ** Names without an extension *)





(** ** Sessions *)

(** Adding an entry to the registry keeps the entries there are. *)
Lemma registry_insert_grows (id : string) (m : module) (mods : gmap string module)
    (x : string) :
  is_Some (mods !! x) -> is_Some (<[id:=m]> mods !! x).
Proof.
  intros Hx. destruct (decide (id = x)) as [->|Hne].
  - rewrite lookup_insert_eq. eauto.
  - rewrite lookup_insert_ne by assumption. exact Hx.
Qed.

Lemma registry_union_grows (mods others : gmap string module) (x : string) :
  is_Some (mods !! x) -> is_Some ((mods ∪ others) !! x).
Proof. intros [m Hx]. exists m. apply lookup_union_Some_l. exact Hx. Qed.

Lemma load_extension_registry (h : host) (id : string) (st : state) :
  let st' := state_of (load_extension h id st) in
  (forall x, is_Some (sys_modules st !! x) -> is_Some (sys_modules st' !! x)) /\
  (forall x, x ∈ loaded st' -> x ∈ loaded st \/ is_Some (sys_modules st' !! x)).
Proof.
  cbv zeta. destruct (decide (id ∈ loaded st)) as [Hin|Hnot].
  { rewrite load_extension_already by assumption. cbn [state_of fst snd]. auto. }
  destruct (sys_modules st !! id) as [m|] eqn:Hm.
  - rewrite (load_extension_registered h id st m Hnot Hm). unfold finish_load.
    destruct (load_hook m) as [[|e]|]; cbn [state_of fst snd]; fields;
      (split; [auto|]); intros x Hx; auto.
    apply elem_of_union in Hx as [Hx | Hx]; [auto|].
    apply elem_of_singleton in Hx. subst x. right. rewrite Hm. eauto.
  - rewrite (load_extension_fresh h id st Hnot Hm). cbv zeta.
    assert (forall m x, is_Some (sys_modules st !! x) ->
              is_Some (sys_modules (imported h id m st) !! x)) as Hgrow.
    { intros m x Hx. unfold imported. fields.
      apply registry_insert_grows, registry_union_grows. exact Hx. }
    destruct (import_module h (fs st) (ipython_extension_dir st :: sys_path st) id)
      as [m|].
    2: { cbn [state_of fst snd]. unfold import_failed. fields.
         split; [intros x; apply registry_union_grows | auto]. }
    destruct (mod_file m) as [file|];
      [|cbn [state_of fst snd]; split; [apply Hgrow | auto]].
    unfold finish_load, after.
    destruct (load_hook m) as [[|e]|]; cbn [state_of res_of fst snd];
      (split; [apply Hgrow|]); intros x Hx; auto.
    unfold imported in *. fields.
    apply elem_of_union in Hx as [Hx | Hx]; [auto|].
    apply elem_of_singleton in Hx. subst x. right.
    rewrite lookup_insert_eq. eauto.
Qed.

Lemma reload_extension_registry (h : host) (id : string) (st : state) :
  let st' := state_of (reload_extension h id st) in
  (forall x, is_Some (sys_modules st !! x) -> is_Some (sys_modules st' !! x)) /\
  (forall x, x ∈ loaded st' -> x ∈ loaded st \/ is_Some (sys_modules st' !! x)).
Proof.
  cbv zeta.
  destruct (decide (id ∈ loaded st)) as [Hin|Hnot];
    [destruct (sys_modules st !! id) as [m|] eqn:Hm|].
  - rewrite (reload_extension_registered h id st m Hin Hm).
    unfold finish_reload, after, ipython_extension_dir. fields.
    destruct (unload_hook m) as [[|e]|];
      try destruct (reload h (fs st) (Path.join (ipython_dir st) "extensions" :: sys_path st) m)
        as [m'|];
      try destruct (load_hook m') as [[|e']|];
      cbn [state_of res_of fst snd]; fields;
      (split; [intros x Hx; first [exact Hx | apply registry_insert_grows; exact Hx]|]);
      intros x Hx;
      repeat match type of Hx with
      | _ ∈ _ ∪ _ => apply elem_of_union in Hx as [Hx | Hx]
      | _ ∈ _ ∖ _ => apply elem_of_difference in Hx as [Hx _]
      | _ ∈ {[ _ ]} => apply elem_of_singleton in Hx; subst x; right;
                       rewrite lookup_insert_eq; eauto
      end; auto.
  - rewrite reload_extension_delegates by auto. apply (load_extension_registry h id st).
  - rewrite reload_extension_delegates by auto. apply (load_extension_registry h id st).
Qed.

Lemma on_ipython_dir_changed_registry (st : state) :
  loaded (state_of (_on_ipython_dir_changed st)) = loaded st /\
  sys_modules (state_of (_on_ipython_dir_changed st)) = sys_modules st.
Proof.
  unfold _on_ipython_dir_changed. rewrite bind_gets, ensure_dir_exists_eq.
  destruct (fs st !! ipython_extension_dir st); split; reflexivity.
Qed.

Lemma perform_registry (h : host) (c : call) (st : state) :
  (forall x, x ∈ loaded st -> is_Some (sys_modules st !! x)) ->
  forall x, x ∈ loaded (state_of (perform h c st)) ->
    is_Some (sys_modules (state_of (perform h c st)) !! x).
Proof.
  intros Hinv x.
  destruct c as [id|id|id|url filename|d]; cbn [perform].
  - destruct (load_extension_registry h id st) as [Hgrow Hnew].
    intros Hx. destruct (Hnew x Hx); auto.
  - destruct (unload_extension_shrinks id st) as [Hsub ->].
    intros Hx. apply Hinv, Hsub, Hx.
  - destruct (reload_extension_registry h id st) as [Hgrow Hnew].
    intros Hx. destruct (Hnew x Hx); auto.
  - destruct (install_extension_keeps h url filename st) as (-> & ->).
    apply Hinv.
  - rewrite (bind_ok _ _ st (set_ipython_dir d st) tt []) by reflexivity.
    rewrite after_nil.
    pose proof (on_ipython_dir_changed_registry (set_ipython_dir d st)) as [Hl Hm].
    destruct (_on_ipython_dir_changed (set_ipython_dir d st))
      as [[[[]|e] s1] ev1] eqn:Hrun;
      [rewrite (bind_ok _ _ _ _ _ _ Hrun) | rewrite (bind_err _ _ _ _ _ _ Hrun)];
      unfold after, ret, state_of in *; cbn [fst snd] in *;
      rewrite Hl, Hm; apply Hinv.
Qed.

Lemma session_registry (h : host) (cs : list call) (st : state) :
  (forall x, x ∈ loaded st -> is_Some (sys_modules st !! x)) ->
  forall x, x ∈ loaded (fst (session h cs st)) ->
    is_Some (sys_modules (fst (session h cs st)) !! x).
Proof.
  revert st. induction cs as [|c cs IH]; intros st Hinv; [exact Hinv|].
  cbn [session fst snd]. apply IH. apply perform_registry. exact Hinv.
Qed.

(** X17: as long as only the manager's methods run, every loaded extension
    is registered: after any session of calls on a new manager, each
    identifier in [loaded] is a key of [sys.modules].  So the silent path of
    [unload_extension], for an identifier that is loaded but not
    registered, is taken only when something else has removed the module
    from [sys.modules]. *)
Theorem session_loaded_registered
    (h : host) (dir : string) (mods : gmap string module)
    (path : list string) (files : gmap string node) (cs : list call) (id : string) :
  id ∈ loaded (fst (session h cs (init dir mods path files))) ->
  is_Some (sys_modules (fst (session h cs (init dir mods path files))) !! id).
Proof.
  apply session_registry. intros x Hx. exfalso.
  apply (not_elem_of_empty (C:=gset string) x). exact Hx.
Qed.

Lemma perform_newly_loaded (h : host) (c : call) (st : state) (id : string) :
  id ∈ loaded (state_of (perform h c st)) ->
  id ∈ loaded st \/ c = CallLoad id \/ c = CallReload id.
Proof.
  intros Hin.
  destruct (target c) as [id'|] eqn:Htarget.
  - destruct (decide (id = id')) as [->|Hne].
    + destruct c as [x|x|x|url filename|d]; inversion Htarget; subst; auto.
      left. cbn [perform] in Hin.
      apply (proj1 (unload_extension_shrinks id' st)). exact Hin.
    + left. rewrite perform_replay in Hin. unfold completions in Hin.
      cbn [fst snd] in Hin. rewrite Htarget in Hin.
      apply (replay_marks_other id' id) in Hin; assumption.
  - left. rewrite perform_replay in Hin. unfold completions in Hin.
    cbn [fst snd] in Hin. rewrite Htarget in Hin. exact Hin.
Qed.

Lemma session_newly_loaded (h : host) (cs : list call) (st : state) (id : string) :
  id ∈ loaded (fst (session h cs st)) ->
  id ∈ loaded st \/ CallLoad id ∈ cs \/ CallReload id ∈ cs.
Proof.
  revert st. induction cs as [|c cs IH]; intros st Hin; [auto|].
  cbn [session fst snd] in Hin.
  destruct (IH _ Hin) as [Hst | [Hl | Hr]].
  - destruct (perform_newly_loaded h c st id Hst) as [H0 | [-> | ->]];
      [auto | right; left | right; right]; apply list_elem_of_here.
  - right. left. apply list_elem_of_further. exact Hl.
  - right. right. apply list_elem_of_further. exact Hr.
Qed.

(** X18: nothing is loaded behind the caller's back: after any session of
    calls on a new manager, an identifier is in [loaded] only if the session
    contains a [load_extension] or a [reload_extension] call for exactly
    that identifier; installing a file or unloading never loads. *)
Theorem session_loaded_was_requested
    (h : host) (dir : string) (mods : gmap string module)
    (path : list string) (files : gmap string node) (cs : list call) (id : string) :
  id ∈ loaded (fst (session h cs (init dir mods path files))) ->
  CallLoad id ∈ cs \/ CallReload id ∈ cs.
Proof.
  intros Hin. destruct (session_newly_loaded h cs _ id Hin) as [Hinit|]; [|assumption].
  exfalso. apply (not_elem_of_empty (C:=gset string) id). exact Hinit.
Qed.

(** ** The further properties at work *)


Lemma load_then_unload_restores_loaded_witness :
  exists st1 st2 ev1,
    load_extension Demo.world "hello" Demo.fresh =
      (Ok PyNone, st1, ev1 ++ [EvHook LoadHook Demo.hello Returns]) /\
    unload_extension "hello" st1 =
      (Ok PyNone, st2, [EvHook UnloadHook Demo.hello Returns]) /\
    loaded st2 = loaded Demo.fresh /\
    sys_modules st2 !! "hello" = Some Demo.hello.
Proof.
  apply (load_then_unload_restores_loaded Demo.world "hello" Demo.fresh Demo.hello).
  - by_computation.
  - apply resolves_imported; [reflexivity | reflexivity | eexists; reflexivity].
  - reflexivity.
  - reflexivity.
Defined.



Example failed_import_registers_parent :
  sys_modules (state_of (load_extension Corner.world "pkg.missing" Demo.fresh))
    !! "pkg" = Some Corner.pkg.
Proof. reflexivity. Qed.

Lemma load_extension_warning_witness :
  events_of (load_extension Legacy.world "old_style" Legacy.fresh) =
    EvImport "old_style" ::
    (if Path.startswith "/home/u/.ipython/extensions/old_style.py"
          (ipython_extension_dir Legacy.fresh)
     then [EvPrint "old_style" (ipython_extension_dir Legacy.fresh)] else [])
    ++ hook_events LoadHook Legacy.old_style.
Proof.
  apply (load_extension_warning Legacy.world "old_style"
           "/home/u/.ipython/extensions/old_style.py" Legacy.fresh Legacy.old_style).
  - by_computation.
  - reflexivity.
  - reflexivity.
  - reflexivity.
Defined.

Example legacy_warning_printed :
  events_of (load_extension Legacy.world "old_style" Legacy.fresh) =
    [EvImport "old_style";
     EvPrint "old_style" "/home/u/.ipython/extensions";
     EvHook LoadHook Legacy.old_style Returns].
Proof. vm_compute. reflexivity. Qed.

Lemma load_extension_again_without_import_witness :
  exists st1 ev1,
    load_extension Demo.world "bare" Demo.fresh =
      (Ok (PyStr "no load function"), st1, EvImport "bare" :: ev1) /\
    sys_modules st1 !! "bare" = Some Demo.bare /\
    load_extension Demo.world "bare" st1 = (Ok (PyStr "no load function"), st1, []).
Proof.
  apply (load_extension_again_without_import Demo.world "bare" Demo.fresh Demo.bare).
  - by_computation.
  - reflexivity.
  - reflexivity.
  - eexists; reflexivity.
  - reflexivity.
Defined.

Lemma perform_other_extensions_witness :
  "stubborn" ∈ loaded (state_of (perform Demo.world (CallLoad "hello")
                                   Demo.with_stubborn)) <->
  "stubborn" ∈ loaded Demo.with_stubborn.
Proof.
  apply (perform_other_extensions Demo.world (CallLoad "hello")
           Demo.with_stubborn "hello" "stubborn").
  - reflexivity.
  - by_computation.
Defined.

Lemma hooks_stay_on_their_side_witness :
  exists m b,
    EvHook UnloadHook Demo.hello Returns = EvHook UnloadHook m b /\
    sys_modules Demo.with_hello !! "hello" = Some m.
Proof.
  apply (proj1 (hooks_stay_on_their_side Demo.world "hello" Demo.with_hello
                  (EvHook UnloadHook Demo.hello Returns))).
  vm_compute. apply list_elem_of_here.
Defined.

Lemma reload_extension_returns_none_witness :
  res_of (reload_extension Demo.world "bare" Demo.fresh) = Ok PyNone /\
  PyNone = PyNone.
Proof.
  split; [reflexivity|].
  apply (reload_extension_returns_none Demo.world "bare" Demo.fresh PyNone).
  reflexivity.
Defined.

Lemma reload_extension_loaded_after_witness :
  ("hello" ∈ loaded (state_of (reload_extension Demo.world "hello" Demo.with_hello)) <->
   unload_hook Demo.hello <> Some Returns \/
   exists m',
     reload Demo.world (fs Demo.with_hello)
       (ipython_extension_dir Demo.with_hello :: sys_path Demo.with_hello)
       Demo.hello = Some m' /\ load_hook m' = Some Returns) /\
  (forall m', unload_hook Demo.hello = Some Returns \/ unload_hook Demo.hello = None ->
     reload Demo.world (fs Demo.with_hello)
       (ipython_extension_dir Demo.with_hello :: sys_path Demo.with_hello)
       Demo.hello = Some m' ->
     sys_modules (state_of (reload_extension Demo.world "hello" Demo.with_hello))
       !! "hello" = Some m').
Proof.
  apply (reload_extension_loaded_after Demo.world "hello" Demo.with_hello Demo.hello).
  - by_computation.
  - reflexivity.
Defined.

Lemma install_extension_result_extension_witness :
  exists path,
    PyStr "/home/u/.ipython/extensions/ext.py" = PyStr path /\
    (Path.endswith path ".py" = true \/ Path.endswith path ".zip" = true).
Proof.
  apply (install_extension_result_extension Demo.world "/tmp/ext.py" None Demo.fresh).
  vm_compute. reflexivity.
Defined.



Lemma session_loaded_registered_witness :
  is_Some (sys_modules (fst (session Demo.world
    [CallLoad "hello"; CallInstall "/tmp/ext.py" None; CallReload "hello"]
    (init Demo.home ∅ ["/site"] ∅))) !! "hello").
Proof.
  apply (session_loaded_registered Demo.world Demo.home ∅ ["/site"] ∅
           [CallLoad "hello"; CallInstall "/tmp/ext.py" None; CallReload "hello"]
           "hello").
  by_computation.
Defined.

Lemma session_loaded_was_requested_witness :
  CallLoad "stubborn" ∈ [CallReload "stubborn"; CallUnload "stubborn"] \/
  CallReload "stubborn" ∈ [CallReload "stubborn"; CallUnload "stubborn"].
Proof.
  apply (session_loaded_was_requested Demo.world Demo.home ∅ ["/site"] ∅
           [CallReload "stubborn"; CallUnload "stubborn"] "stubborn").
  by_computation.
Defined.
